(** * Orders Lambda handler: a shallow embedding of [main.go]

    The program is one AWS Lambda handler in front of a DynamoDB table.  It
    dispatches on the HTTP method, talks to the store through three SDK calls
    ([PutItem], [Scan], [Query]) and maps store items to [Order] values.

    Layout of the development:
    - [strconv]: the two conversions behind [intToString] and [atoi];
    - [json]: the encoder behind the response bodies;
    - the data model: [Order], attribute values, request and response;
    - [Lambda]: the effects of one invocation as a tree of clock readings, log
      lines and store calls, and the handler functions written in it;
    - [World]: an interpretation of the effects against a keyed table;
    - the vocabulary of the properties, and sample surroundings;
    - the properties, further properties of the same functions, and both on
      the sample inputs.

    [init] builds the store client once per process and [main] hands [handler]
    to the Lambda runtime; neither takes part in an invocation, and the three
    calls on [dbClient] are the store effects of the tree. *)

From Stdlib Require Import ZArith Lia Ascii String.
From stdpp Require Import base option list strings gmap sorting.

Local Open Scope Z_scope.

(** Lets [lia] reason about division and remainder by constants. *)
Ltac Zify.zify_post_hook ::= Z.to_euclidean_division_equations.

(** ** Go strings

    A Go string is a sequence of bytes; [string] is a sequence of [ascii],
    which are eight-bit characters. *)

Definition byte (c : ascii) : Z := Z.of_nat (nat_of_ascii c).
Definition chr (b : Z) : ascii := ascii_of_nat (Z.to_nat b).
Definition len (s : string) : Z := Z.of_nat (String.length s).

(** The double-quote character, as a text of length one. *)
Definition dquote : string := String (chr 34) EmptyString.

(** ** Machine integers

    Go's [int] is 64 bits wide on the platforms Lambda runs; values are
    integers with the wrap-around of a conversion written out. *)

Definition uint64 (z : Z) : Z := z mod 2 ^ 64.
Definition int64 (z : Z) : Z := (z + 2 ^ 63) mod 2 ^ 64 - 2 ^ 63.
Definition maxUint64 : Z := 2 ^ 64 - 1.
Definition MaxInt : Z := 2 ^ 63 - 1.
Definition MinInt : Z := - 2 ^ 63.
Definition is_int (z : Z) : Prop := MinInt <= z <= MaxInt.

(** ** Package [strconv], as far as [Itoa] and [Atoi] reach into it

    [ParseUint] and [ParseInt] are specialised to the arguments [Atoi] passes:
    base 10 and bit size 0, which stands for the size of [int]. *)
Module strconv.

Inductive Err := ErrRange | ErrSyntax.

Record NumError := { Func : string; Num : string; Err_ : Err }.

Definition syntaxError (fn str : string) : NumError :=
  {| Func := fn; Num := str; Err_ := ErrSyntax |}.
Definition rangeError (fn str : string) : NumError :=
  {| Func := fn; Num := str; Err_ := ErrRange |}.

Definition fnParseUint : string := "ParseUint".
Definition fnParseInt : string := "ParseInt".
Definition fnAtoi : string := "Atoi".

Definition intSize : Z := 64.

(** [lower(c)]: the byte with the lower-case bit set. *)
Definition lower (c : Z) : Z := Z.lor c 32.

(** The digit loop of [ParseUint]; [n] is the value read so far.  The range
    checks come before the rest of the text is looked at. *)
Fixpoint ParseUint_loop (s0 : string) (cs : string) (n : Z)
  : Z * option NumError :=
  match cs with
  | EmptyString => (n, None)
  | String ch rest =>
      let c := byte ch in
      let digit :=
        if (48 <=? c) && (c <=? 57) then Some (c - 48)
        else if (97 <=? lower c) && (lower c <=? 122)
             then Some (lower c - 97 + 10)
             else None in
      match digit with
      | None => (0, Some (syntaxError fnParseUint s0))
      | Some d =>
          if 10 <=? d then (0, Some (syntaxError fnParseUint s0))
          else
            let cutoff := maxUint64 / 10 + 1 in
            let maxVal := 2 ^ intSize - 1 in
            if cutoff <=? n then (maxVal, Some (rangeError fnParseUint s0))
            else
              let n' := uint64 (n * 10) in
              let n1 := uint64 (n' + d) in
              if (n1 <? n') || (maxVal <? n1)
              then (maxVal, Some (rangeError fnParseUint s0))
              else ParseUint_loop s0 rest n1
      end
  end.

Definition ParseUint (s : string) : Z * option NumError :=
  match s with
  | EmptyString => (0, Some (syntaxError fnParseUint s))
  | _ => ParseUint_loop s s 0
  end.

Definition ParseInt (s : string) : Z * option NumError :=
  match s with
  | EmptyString => (0, Some (syntaxError fnParseInt s))
  | String c0 rest =>
      let s0 := s in
      let '(neg, s) :=
        if byte c0 =? 43 then (false, rest)
        else if byte c0 =? 45 then (true, rest)
        else (false, s) in
      let '(un, err) := ParseUint s in
      let not_range :=
        match err with
        | Some e => match Err_ e with ErrRange => false | _ => true end
        | None => false
        end in
      if not_range
      then (0, Some {| Func := fnParseInt; Num := s0; Err_ := ErrSyntax |})
      else
        let cutoff := 2 ^ (intSize - 1) in
        if negb neg && (cutoff <=? un)
        then (int64 (cutoff - 1), Some (rangeError fnParseInt s0))
        else if neg && (cutoff <? un)
        then (int64 (- cutoff), Some (rangeError fnParseInt s0))
        else
          let n := int64 un in
          (if neg then int64 (- n) else n, None)
  end.

(** The digit loop of the fast path of [Atoi]: [ch -= '0'] on a byte. *)
Fixpoint Atoi_loop (s0 : string) (cs : string) (n : Z)
  : Z * option NumError :=
  match cs with
  | EmptyString => (n, None)
  | String c rest =>
      let ch := (byte c - 48) mod 256 in
      if 9 <? ch then (0, Some (syntaxError fnAtoi s0))
      else Atoi_loop s0 rest (int64 (n * 10 + ch))
  end.

Definition Atoi (s : string) : Z * option NumError :=
  let sLen := len s in
  if (0 <? sLen) && (sLen <? 19) then
    match s with
    | EmptyString => (0, Some (syntaxError fnAtoi s))
    | String c0 rest =>
        let s0 := s in
        let signed := (byte c0 =? 45) || (byte c0 =? 43) in
        let s := if signed then rest else s in
        if signed && (len s <? 1) then (0, Some (syntaxError fnAtoi s0))
        else
          match Atoi_loop s0 s 0 with
          | (n, None) =>
              (if byte c0 =? 45 then int64 (- n) else n, None)
          | failed => failed
          end
    end
  else
    match ParseInt s with
    | (i64, Some nerr) =>
        (i64, Some {| Func := fnAtoi; Num := Num nerr; Err_ := Err_ nerr |})
    | (i64, None) => (i64, None)
    end.

(** The decimal digit [d], as [smallsString] and [digits] hold it. *)
Definition digit (d : Z) : ascii := chr (48 + d).

(** [small(i)] for [0 <= i < 100]. *)
Definition small (i : Z) : string :=
  if i <? 10 then String (digit i) EmptyString
  else String (digit (i / 10)) (String (digit (i mod 10)) EmptyString).

(** The base-10 loop of [formatBits]: two digits at a time while the rest is
    at least 100, then the one or two leading digits.  Ten rounds empty any
    64-bit value. *)
Fixpoint formatBits_loop (rounds : nat) (us : Z) (a : string) : string :=
  if us <? 100 then
    let a := String (digit (us mod 10)) a in
    if 10 <=? us then String (digit (us / 10)) a else a
  else
    match rounds with
    | O => a
    | S rounds =>
        let two := us mod 100 in
        formatBits_loop rounds (us / 100)
          (String (digit (two / 10)) (String (digit (two mod 10)) a))
    end.

Definition formatBits (u : Z) (neg : bool) : string :=
  let u := if neg then uint64 (- u) else u in
  let a := formatBits_loop 10 u EmptyString in
  if neg then String (chr 45) a else a.

Definition FormatInt (i : Z) : string :=
  if (0 <=? i) && (i <? 100) then small i
  else formatBits (uint64 i) (i <? 0).

Definition Itoa (i : Z) : string := FormatInt (int64 i).

End strconv.

(** ** The [Order] model

    [Quantity] is a Go [int]; the other fields are strings. *)
Record Order := {
  OrderID : string;
  CustomerName : string;
  Product : string;
  Quantity : Z;
  Status : string;
  CreatedAt : string;
}.

(** ** Package [encoding/json], as far as [json.Marshal] is used

    The handler marshals two shapes: a [map[string]string] holding one message,
    and a slice of [Order].  Both go through the string encoder [appendString]
    with HTML escaping on, which is what [json.Marshal] selects.  The escapes
    of backspace and form feed are those of Go 1.22 and later. *)
Module json.

Definition RuneError : Z := 65533.

(** [hex[d]] for [0 <= d < 16]. *)
Definition hex (d : Z) : ascii := if d <? 10 then chr (48 + d) else chr (87 + d).

(** [htmlSafeSet[b]]: printable ASCII but for the double quote, the
    backslash and the three characters HTML cares about. *)
Definition htmlSafeSet (b : Z) : bool :=
  (32 <=? b) && (b <? 128) &&
  negb ((b =? 34) || (b =? 38) || (b =? 60) || (b =? 62) || (b =? 92)).

Definition backslash : ascii := chr 92.

(** The escape of an ASCII byte outside [htmlSafeSet]. *)
Definition escape (b : Z) : string :=
  if (b =? 92) || (b =? 34) then String backslash (String (chr b) EmptyString)
  else if b =? 8 then String backslash "b"
  else if b =? 12 then String backslash "f"
  else if b =? 10 then String backslash "n"
  else if b =? 13 then String backslash "r"
  else if b =? 9 then String backslash "t"
  else String backslash
         (String "u" (String "0" (String "0"
            (String (hex (Z.shiftr b 4))
               (String (hex (Z.land b 15)) EmptyString))))).

(** What the table [first] of package [unicode/utf8] says of a lead byte:
    plain ASCII, no lead byte at all, or the lead of a sequence of [sz]
    bytes whose second byte lies in [lo..hi]. *)
Inductive lead := ASCII | Invalid | Lead (sz : nat) (lo hi : Z).

Definition first (s0 : Z) : lead :=
  if s0 <? 128 then ASCII
  else if s0 <? 194 then Invalid
  else if s0 <? 224 then Lead 2 128 191
  else if s0 =? 224 then Lead 3 160 191
  else if s0 =? 237 then Lead 3 128 159
  else if s0 <? 240 then Lead 3 128 191
  else if s0 =? 240 then Lead 4 144 191
  else if s0 <? 244 then Lead 4 128 191
  else if s0 =? 244 then Lead 4 128 143
  else Invalid.

Definition continuation (b : Z) : bool := (128 <=? b) && (b <=? 191).

(** [utf8.DecodeRuneInString]: the first rune of [s] and its width. *)
Definition DecodeRuneInString (s : string) : Z * nat :=
  match s with
  | EmptyString => (RuneError, 0%nat)
  | String c0 r0 =>
      let s0 := byte c0 in
      match first s0 with
      | ASCII => (s0, 1%nat)
      | Invalid => (RuneError, 1%nat)
      | Lead sz lo hi =>
          if (String.length s <? sz)%nat then (RuneError, 1%nat)
          else
            match r0 with
            | EmptyString => (RuneError, 1%nat)
            | String c1 r1 =>
                let s1 := byte c1 in
                if (s1 <? lo) || (hi <? s1) then (RuneError, 1%nat)
                else if (sz <=? 2)%nat
                then (Z.lor (Z.shiftl (Z.land s0 31) 6) (Z.land s1 63), 2%nat)
                else
                  match r1 with
                  | EmptyString => (RuneError, 1%nat)
                  | String c2 r2 =>
                      let s2 := byte c2 in
                      if negb (continuation s2) then (RuneError, 1%nat)
                      else if (sz <=? 3)%nat
                      then (Z.lor (Z.shiftl (Z.land s0 15) 12)
                              (Z.lor (Z.shiftl (Z.land s1 63) 6)
                                 (Z.land s2 63)), 3%nat)
                      else
                        match r2 with
                        | EmptyString => (RuneError, 1%nat)
                        | String c3 _ =>
                            let s3 := byte c3 in
                            if negb (continuation s3) then (RuneError, 1%nat)
                            else (Z.lor (Z.shiftl (Z.land s0 7) 18)
                                    (Z.lor (Z.shiftl (Z.land s1 63) 12)
                                       (Z.lor (Z.shiftl (Z.land s2 63) 6)
                                          (Z.land s3 63))), 4%nat)
                        end
                  end
            end
      end
  end.

(** The loop of [appendString] over the bytes of [src].  Go advances an index
    by the width of the rune it has decoded; here [pending] counts the bytes
    of that rune still ahead, and [keep] says whether they are copied (a
    valid rune) or dropped (U+2028 and U+2029, already written as an
    escape). *)
Fixpoint appendString_loop (pending : nat) (keep : bool) (src : string)
  : string :=
  match src with
  | EmptyString => EmptyString
  | String ch rest =>
      match pending with
      | S pending =>
          if keep then String ch (appendString_loop pending keep rest)
          else appendString_loop pending keep rest
      | O =>
          let b := byte ch in
          if b <? 128 then
            if htmlSafeSet b then String ch (appendString_loop 0 true rest)
            else escape b +:+ appendString_loop 0 true rest
          else
            let '(c, size) := DecodeRuneInString src in
            if (c =? RuneError) && (size =? 1)%nat
            then String backslash "ufffd" +:+ appendString_loop 0 true rest
            else if (c =? 8232) || (c =? 8233)
            then String backslash "u202" +:+
                 String (hex (Z.land c 15))
                   (appendString_loop (size - 1) false rest)
            else String ch (appendString_loop (size - 1) true rest)
      end
  end.

Definition appendString (src : string) : string :=
  dquote +:+ appendString_loop 0 true src +:+ dquote.

(** Elements separated by commas. *)
Fixpoint join (parts : list string) : string :=
  match parts with
  | [] => EmptyString
  | [p] => p
  | p :: ps => p +:+ "," +:+ join ps
  end.

(** A map with string keys: an object whose members come sorted by key. *)
Definition key_le (p q : string * string) : Prop := String.le p.1 q.1.
#[global] Instance key_le_dec : RelDecision key_le.
Proof. intros p q. unfold key_le. apply _. Defined.

Definition Marshal_map (m : gmap string string) : string :=
  "{" +:+
  join ((fun kv : string * string => appendString kv.1 +:+ ":" +:+ appendString kv.2)
          <$> merge_sort key_le (map_to_list m)) +:+
  "}".

(** A struct member: the quoted field name, a colon, the encoded value. *)
Definition member (name value : string) : string :=
  dquote +:+ name +:+ dquote +:+ ":" +:+ value.

(** An [Order], with the member names of its [json] tags, in field order. *)
Definition Marshal_Order (o : Order) : string :=
  "{" +:+
  join [ member "orderId" (appendString (OrderID o));
         member "customerName" (appendString (CustomerName o));
         member "product" (appendString (Product o));
         member "quantity" (strconv.Itoa (Quantity o));
         member "status" (appendString (Status o));
         member "createdAt" (appendString (CreatedAt o)) ] +:+
  "}".

(** A slice of [Order] that is not nil: an array, [[]] when empty. *)
Definition Marshal_Orders (orders : list Order) : string :=
  "[" +:+ join (Marshal_Order <$> orders) +:+ "]".

End json.

(** ** Package [types] of the DynamoDB SDK

    [AttributeValue] is an interface with one implementation per DynamoDB
    type; a value of the interface is one of these, or nil. *)
Module types.

#[local] Unset Elimination Schemes.
Inductive AttributeValue :=
| AttributeValueMemberB (Value : string)
| AttributeValueMemberBOOL (Value : bool)
| AttributeValueMemberBS (Value : list string)
| AttributeValueMemberL (Value : list AttributeValue)
| AttributeValueMemberM (Value : gmap string AttributeValue)
| AttributeValueMemberN (Value : string)
| AttributeValueMemberNS (Value : list string)
| AttributeValueMemberNULL (Value : bool)
| AttributeValueMemberS (Value : string)
| AttributeValueMemberSS (Value : list string).
#[local] Set Elimination Schemes.

(** The dynamic type of an interface value. *)
Inductive Member :=
  MemberB | MemberBOOL | MemberBS | MemberL | MemberM
| MemberN | MemberNS | MemberNULL | MemberS | MemberSS.

Definition typeOf (v : AttributeValue) : Member :=
  match v with
  | AttributeValueMemberB _ => MemberB
  | AttributeValueMemberBOOL _ => MemberBOOL
  | AttributeValueMemberBS _ => MemberBS
  | AttributeValueMemberL _ => MemberL
  | AttributeValueMemberM _ => MemberM
  | AttributeValueMemberN _ => MemberN
  | AttributeValueMemberNS _ => MemberNS
  | AttributeValueMemberNULL _ => MemberNULL
  | AttributeValueMemberS _ => MemberS
  | AttributeValueMemberSS _ => MemberSS
  end.

End types.
Export types.

(** A store item, [map[string]types.AttributeValue].  Reading a key the map
    does not hold gives the nil interface, [None] here. *)
Abbreviation Item := (gmap string AttributeValue).

(** ** Panics

    The one way this program panics is a failed type assertion; the runtime
    raises a [TypeAssertionError] naming the dynamic type found ([None] for
    nil) and the type asserted. *)
Record TypeAssertionError := {
  concrete : option Member;
  asserted : Member;
}.

Inductive Eval (A : Type) : Type :=
| Val (a : A)
| Panic (e : TypeAssertionError).
Arguments Val {A} a.
Arguments Panic {A} e.

#[global] Instance Eval_ret : MRet Eval := fun A a => Val a.
#[global] Instance Eval_bind : MBind Eval := fun A B f m =>
  match m with
  | Val a => f a
  | Panic e => Panic e
  end.

(** [v.( *types.AttributeValueMemberS).Value] and its sibling for numbers.  The
    SDK hands out no nil pointer of a member type, so a value that passes the
    assertion has its [Value]. *)
Definition assertS (v : option AttributeValue) : Eval string :=
  match v with
  | Some (AttributeValueMemberS s) => Val s
  | other => Panic {| concrete := typeOf <$> other; asserted := MemberS |}
  end.

Definition assertN (v : option AttributeValue) : Eval string :=
  match v with
  | Some (AttributeValueMemberN s) => Val s
  | other => Panic {| concrete := typeOf <$> other; asserted := MemberN |}
  end.

(** ** The helpers of [main.go] that touch no store *)

Definition tableName : string := "Orders".

Definition intToString (i : Z) : string := strconv.Itoa i.

Definition atoi (s : string) : Z :=
  let '(i, _) := strconv.Atoi s in i.

(** The fields of the literal are evaluated in the order written, so the first
    assertion that fails is the one that panics. *)
Definition mapToOrder (item : Item) : Eval Order :=
  orderId ← assertS (item !! "orderId"%string);
  customerName ← assertS (item !! "customerName"%string);
  product ← assertS (item !! "product"%string);
  quantity ← assertN (item !! "quantity"%string);
  status ← assertS (item !! "status"%string);
  createdAt ← assertS (item !! "createdAt"%string);
  mret {| OrderID := orderId;
          CustomerName := customerName;
          Product := product;
          Quantity := atoi quantity;
          Status := status;
          CreatedAt := createdAt |}.

(** The [for ... range out.Items] loop of both fetch operations. *)
Fixpoint range_Items (items : list Item) (orders : list Order)
  : Eval (list Order) :=
  match items with
  | [] => Val orders
  | item :: items =>
      order ← mapToOrder item;
      range_Items items (orders ++ [order])
  end.

(** ** The shapes exchanged with the platform and the SDK

    Only the fields the program reads or writes are kept.  A Go [error] is
    kept as its text. *)
Definition error : Type := string.
Definition nil : option error := None.

Module http.
Definition MethodGet : string := "GET".
Definition MethodPost : string := "POST".
Definition StatusOK : Z := 200.
Definition StatusCreated : Z := 201.
Definition StatusBadRequest : Z := 400.
Definition StatusNotFound : Z := 404.
Definition StatusMethodNotAllowed : Z := 405.
Definition StatusInternalServerError : Z := 500.
End http.

Module APIGatewayProxyRequest.
Record t := {
  HTTPMethod : string;
  PathParameters : gmap string string;
  Body : string;
}.
End APIGatewayProxyRequest.

Module APIGatewayProxyResponse.
Record t := {
  StatusCode : Z;
  Body : string;
}.
End APIGatewayProxyResponse.

Module PutItemInput.
Record t := {
  TableName : string;
  Item : gmap string AttributeValue;
}.
End PutItemInput.

Module PutItemOutput.
Record t := {
  Attributes : gmap string AttributeValue;
}.
End PutItemOutput.

Module ScanInput.
Record t := {
  TableName : string;
}.
End ScanInput.

Module ScanOutput.
Record t := {
  Items : list (gmap string AttributeValue);
}.
End ScanOutput.

Module QueryInput.
Record t := {
  TableName : string;
  KeyConditionExpression : string;
  ExpressionAttributeValues : gmap string AttributeValue;
}.
End QueryInput.

Module QueryOutput.
Record t := {
  Items : list (gmap string AttributeValue);
}.
End QueryOutput.

Abbreviation Request := APIGatewayProxyRequest.t.
Abbreviation Response := APIGatewayProxyResponse.t.

(** The store calls an invocation can make. *)
Inductive Call :=
| CallPutItem (params : PutItemInput.t)
| CallScan (params : ScanInput.t)
| CallQuery (params : QueryInput.t).

(** ** Library functions taken as given

    The clock type of package [time] with its [UTC] and [Format] methods, and
    [json.Unmarshal] into a zero [Order]: the decoded value, or the error.  A
    decoded [Quantity] is a Go [int], so it lies in the range of one. *)
Class Libraries := {
  Time : Type;
  time_UTC : Time -> Time;
  time_Format : Time -> string -> string;
  json_Unmarshal : string -> Order + error;
  json_Unmarshal_int body order :
    json_Unmarshal body = inl order -> is_int (Quantity order);
}.

Definition RFC3339 : string := "2006-01-02T15:04:05Z07:00".

Section Program.
Context `{Libraries}.

(** ** The effects of an invocation

    A computation either returns, panics, or performs one effect and goes on
    with its answer: reading the clock, writing a log line, or one of the three
    calls on [dbClient], each answered by an output or an error. *)
Inductive Lambda (A : Type) : Type :=
| Return (a : A)
| Raise (e : TypeAssertionError)
| Now (k : Time -> Lambda A)
| Println (v : list string) (k : Lambda A)
| PutItem (params : PutItemInput.t) (k : PutItemOutput.t + error -> Lambda A)
| Scan (params : ScanInput.t) (k : ScanOutput.t + error -> Lambda A)
| Query (params : QueryInput.t) (k : QueryOutput.t + error -> Lambda A).
#[global] Arguments Return {A} a.
#[global] Arguments Raise {A} e.
#[global] Arguments Now {A} k.
#[global] Arguments Println {A} v k.
#[global] Arguments PutItem {A} params k.
#[global] Arguments Scan {A} params k.
#[global] Arguments Query {A} params k.

Fixpoint Lambda_bind {A B} (f : A -> Lambda B) (m : Lambda A) : Lambda B :=
  match m with
  | Return a => f a
  | Raise e => Raise e
  | Now k => Now (fun t => Lambda_bind f (k t))
  | Println v k => Println v (Lambda_bind f k)
  | PutItem params k => PutItem params (fun r => Lambda_bind f (k r))
  | Scan params k => Scan params (fun r => Lambda_bind f (k r))
  | Query params k => Query params (fun r => Lambda_bind f (k r))
  end.

#[global] Instance Lambda_ret : MRet Lambda := fun A a => Return a.
#[global] Instance Lambda_mbind : MBind Lambda := fun A B f m => Lambda_bind f m.

Definition time_Now : Lambda Time := Now Return.
Definition log_Println (v : list string) : Lambda unit := Println v (Return tt).
Definition dbClient_PutItem (params : PutItemInput.t)
  : Lambda (PutItemOutput.t + error) := PutItem params Return.
Definition dbClient_Scan (params : ScanInput.t)
  : Lambda (ScanOutput.t + error) := Scan params Return.
Definition dbClient_Query (params : QueryInput.t)
  : Lambda (QueryOutput.t + error) := Query params Return.

(** A pure step that may panic. *)
Definition eval {A} (e : Eval A) : Lambda A :=
  match e with
  | Val a => Return a
  | Panic e => Raise e
  end.

(** ** The handler functions of [main.go] *)

Definition response (status : Z) (msg : string)
  : Lambda (Response * option error) :=
  let body := json.Marshal_map {[ "message"%string := msg ]} in
  mret ({| APIGatewayProxyResponse.StatusCode := status;
           APIGatewayProxyResponse.Body := body |}, nil).

(** The item [createOrder] hands to [PutItem]. *)
Definition orderItem (order : Order) : Item :=
  list_to_map
    [ ("orderId"%string, AttributeValueMemberS (OrderID order));
      ("customerName"%string, AttributeValueMemberS (CustomerName order));
      ("product"%string, AttributeValueMemberS (Product order));
      ("quantity"%string, AttributeValueMemberN (intToString (Quantity order)));
      ("status"%string, AttributeValueMemberS (Status order));
      ("createdAt"%string, AttributeValueMemberS (CreatedAt order)) ].

Definition with_CreatedAt (order : Order) (createdAt : string) : Order :=
  {| OrderID := OrderID order;
     CustomerName := CustomerName order;
     Product := Product order;
     Quantity := Quantity order;
     Status := Status order;
     CreatedAt := createdAt |}.

Definition createOrder (req : Request) : Lambda (Response * option error) :=
  match json_Unmarshal (APIGatewayProxyRequest.Body req) with
  | inr err => response http.StatusBadRequest "Invalid request body"
  | inl order =>
      order ← (if decide (CreatedAt order = EmptyString)
               then now ← time_Now;
                    mret (with_CreatedAt order
                            (time_Format (time_UTC now) RFC3339))
               else mret order);
      r ← dbClient_PutItem {| PutItemInput.TableName := tableName;
                              PutItemInput.Item := orderItem order |};
      match r with
      | inr err =>
          log_Println ["PutItem error:"%string; err];;
          response http.StatusInternalServerError "Failed to create order"
      | inl _ => response http.StatusCreated "Order created successfully"
      end
  end.

Definition getAllOrders : Lambda (Response * option error) :=
  r ← dbClient_Scan {| ScanInput.TableName := tableName |};
  match r with
  | inr err =>
      log_Println ["Scan error:"%string; err];;
      response http.StatusInternalServerError "Failed to fetch orders"
  | inl out =>
      orders ← eval (range_Items (ScanOutput.Items out) []);
      let body := json.Marshal_Orders orders in
      mret ({| APIGatewayProxyResponse.StatusCode := http.StatusOK;
               APIGatewayProxyResponse.Body := body |}, nil)
  end.

Definition getOrderByID (orderId : string) : Lambda (Response * option error) :=
  r ← dbClient_Query
        {| QueryInput.TableName := tableName;
           QueryInput.KeyConditionExpression := "orderId = :oid";
           QueryInput.ExpressionAttributeValues :=
             {[ ":oid"%string := AttributeValueMemberS orderId ]} |};
  match r with
  | inr err =>
      log_Println ["Query error:"%string; err];;
      response http.StatusInternalServerError "Failed to fetch order"
  | inl out =>
      if decide (length (QueryOutput.Items out) = 0%nat)
      then response http.StatusNotFound "Order not found"
      else
        orders ← eval (range_Items (QueryOutput.Items out) []);
        let body := json.Marshal_Orders orders in
        mret ({| APIGatewayProxyResponse.StatusCode := http.StatusOK;
                 APIGatewayProxyResponse.Body := body |}, nil)
  end.

Definition handler (req : Request) : Lambda (Response * option error) :=
  if decide (APIGatewayProxyRequest.HTTPMethod req = http.MethodPost)
  then createOrder req
  else if decide (APIGatewayProxyRequest.HTTPMethod req = http.MethodGet)
  then
    match APIGatewayProxyRequest.PathParameters req !! "orderId"%string with
    | Some orderId =>
        if decide (orderId ≠ EmptyString)
        then getOrderByID orderId
        else getAllOrders
    | None => getAllOrders
    end
  else
    mret ({| APIGatewayProxyResponse.StatusCode := http.StatusMethodNotAllowed;
             APIGatewayProxyResponse.Body := "Method not allowed" |}, nil).

End Program.

(** ** The store

    The table behind [dbClient] is a service outside the program.  The three
    definitions below give it the behaviour the specification describes. *)

(** Modelled from the spec: the managed store itself is not part of the
    repository.  The table named for orders is keyed by [orderId]; a write is
    an unconditional upsert by that key, replacing the whole record. *)
Definition store_PutItem (params : PutItemInput.t) (tbl : gmap string Item)
  : (PutItemOutput.t + error) * gmap string Item :=
  if decide (PutItemInput.TableName params = tableName) then
    match PutItemInput.Item params !! "orderId"%string with
    | Some (AttributeValueMemberS key) =>
        (inl {| PutItemOutput.Attributes := ∅ |},
         <[ key := PutItemInput.Item params ]> tbl)
    | _ => (inr "ValidationException"%string, tbl)
    end
  else (inr "ResourceNotFoundException"%string, tbl).

(** Modelled from the spec: a scan is an unbounded read of the whole table,
    every record once, in an order of the store's choosing. *)
Definition store_Scan (params : ScanInput.t) (tbl : gmap string Item)
  : ScanOutput.t + error :=
  if decide (ScanInput.TableName params = tableName)
  then inl {| ScanOutput.Items := (map_to_list tbl).*2 |}
  else inr "ResourceNotFoundException"%string.

(** Modelled from the spec: a query returns the records whose key is exactly
    the identifier bound in the key condition. *)
Definition store_Query (params : QueryInput.t) (tbl : gmap string Item)
  : QueryOutput.t + error :=
  if decide (QueryInput.TableName params = tableName) then
    if decide (QueryInput.KeyConditionExpression params = "orderId = :oid"%string)
    then
      match QueryInput.ExpressionAttributeValues params !! ":oid"%string with
      | Some (AttributeValueMemberS key) =>
          inl {| QueryOutput.Items := option_list (tbl !! key) |}
      | _ => inr "ValidationException"%string
      end
    else inr "ValidationException"%string
  else inr "ResourceNotFoundException"%string.

Section World.
Context `{Libraries}.

(** The surroundings of an invocation: the clock reading, the table, whether
    the store is failing (then every call returns that error and changes
    nothing), the log, and the store calls made so far. *)
Record World := {
  clock : Time;
  table : gmap string Item;
  outage : option error;
  logged : list (list string);
  calls : list Call;
}.

Definition write_log (v : list string) (w : World) : World :=
  {| clock := clock w; table := table w; outage := outage w;
     logged := logged w ++ [v]; calls := calls w |}.

Definition record_call (c : Call) (tbl : gmap string Item) (w : World) : World :=
  {| clock := clock w; table := tbl; outage := outage w;
     logged := logged w; calls := calls w ++ [c] |}.

Fixpoint run {A} (m : Lambda A) (w : World) : Eval A * World :=
  match m with
  | Return a => (Val a, w)
  | Raise e => (Panic e, w)
  | Now k => run (k (clock w)) w
  | Println v k => run k (write_log v w)
  | PutItem params k =>
      let '(r, tbl) :=
        match outage w with
        | Some err => (inr err, table w)
        | None => store_PutItem params (table w)
        end in
      run (k r) (record_call (CallPutItem params) tbl w)
  | Scan params k =>
      let r :=
        match outage w with
        | Some err => inr err
        | None => store_Scan params (table w)
        end in
      run (k r) (record_call (CallScan params) (table w) w)
  | Query params k =>
      let r :=
        match outage w with
        | Some err => inr err
        | None => store_Query params (table w)
        end in
      run (k r) (record_call (CallQuery params) (table w) w)
  end.

(** One invocation as the platform sees it: what the handler returned (or the
    panic), and the world afterwards. *)
Definition invoke (req : Request) (w : World)
  : Eval (Response * option error) * World :=
  run (handler req) w.

End World.
#[global] Arguments World {_}.

(** ** Vocabulary of the properties *)

(** The text [{"message":"msg"}], for a message with nothing to escape. *)
Definition quoted (s : string) : string := dquote +:+ s +:+ dquote.
Definition message_json (msg : string) : string :=
  "{" +:+ quoted "message" +:+ ":" +:+ quoted msg +:+ "}".

(** A text made only of bytes the encoder copies unchanged. *)
Fixpoint plain (s : string) : bool :=
  match s with
  | EmptyString => true
  | String ch rest => json.htmlSafeSet (byte ch) && plain rest
  end.

(** An item has the shape [mapToOrder] asserts: five string attributes and a
    numeric [quantity]. *)
Definition holds_S (item : Item) (key : string) : Prop :=
  exists s, item !! key = Some (AttributeValueMemberS s).
Definition holds_N (item : Item) (key : string) : Prop :=
  exists s, item !! key = Some (AttributeValueMemberN s).
Definition order_shaped (item : Item) : Prop :=
  holds_S item "orderId" /\ holds_S item "customerName" /\
  holds_S item "product" /\ holds_N item "quantity" /\
  holds_S item "status" /\ holds_S item "createdAt".

Section History.
Context `{Libraries}.

(** The order [createOrder] writes for a decoded [order] when the clock
    reads [now]. *)
Definition stamped (order : Order) (now : Time) : Order :=
  if decide (CreatedAt order = EmptyString)
  then with_CreatedAt order (time_Format (time_UTC now) RFC3339)
  else order.

(** One delivery of a request by the platform: the request, the clock reading
    during it, and whether the store is failing meanwhile. *)
Record Invocation := {
  request : Request;
  at_time : Time;
  store_down : option error;
}.

Definition arrive (inv : Invocation) (w : World) : World :=
  {| clock := at_time inv; table := table w; outage := store_down inv;
     logged := logged w; calls := calls w |}.

Definition step (w : World) (inv : Invocation) : World :=
  (invoke (request inv) (arrive inv w)).2.

(** The world before any invocation: an empty table. *)
Definition start (now : Time) : World :=
  {| clock := now; table := ∅; outage := None; logged := []; calls := [] |}.

Definition after (now : Time) (history : list Invocation) : World :=
  foldl step (start now) history.

(** The record a create leaves behind, when its body decodes and the store
    takes the write. *)
Definition created (inv : Invocation) : option Order :=
  if decide (APIGatewayProxyRequest.HTTPMethod (request inv) = http.MethodPost)
  then
    match store_down inv,
          json_Unmarshal (APIGatewayProxyRequest.Body (request inv)) with
    | None, inl order => Some (stamped order (at_time inv))
    | _, _ => None
    end
  else None.

(** The records created so far, by identifier; a later create with the same
    identifier replaces the earlier record. *)
Definition records (history : list Invocation) : gmap string Order :=
  foldl (fun m inv =>
           match created inv with
           | Some order => <[ OrderID order := order ]> m
           | None => m
           end) ∅ history.

(** The order identifier of a request, when its path carries one that is
    not empty. *)
Definition identifier (req : Request) : option string :=
  match APIGatewayProxyRequest.PathParameters req !! "orderId"%string with
  | Some orderId => if decide (orderId = EmptyString) then None else Some orderId
  | None => None
  end.

(** How a computation that starts with a scan, or with a query, goes on once
    the store has answered [reply]. *)
Definition on_Scan {A} (m : Lambda A) (reply : ScanOutput.t + error)
  : option (Lambda A) :=
  match m with
  | Scan _ k => Some (k reply)
  | _ => None
  end.

Definition on_Query {A} (m : Lambda A) (reply : QueryOutput.t + error)
  : option (Lambda A) :=
  match m with
  | Query _ k => Some (k reply)
  | _ => None
  end.

(** The reads a computation starts with, if it starts with one. *)
Definition first_read {A} (m : Lambda A) : option Call :=
  match m with
  | Scan params _ => Some (CallScan params)
  | Query params _ => Some (CallQuery params)
  | _ => None
  end.

End History.
#[global] Arguments Invocation {_}.

(** ** Sample surroundings

    Stand-ins for the library functions, enough to run the handler on the
    requests of the commented-out test in [main]: an instant is kept as the
    RFC3339 text of its UTC reading, and the decoder knows two request
    bodies. *)
Module Sample.

Definition lunch_body : string :=
  "{" +:+ quoted "orderId" +:+ ":" +:+ quoted "20221" +:+ "," +:+
  quoted "customerName" +:+ ":" +:+ quoted "Siri" +:+ "," +:+
  quoted "product" +:+ ":" +:+ quoted "Lunch Box" +:+ "," +:+
  quoted "quantity" +:+ ":1," +:+
  quoted "status" +:+ ":" +:+ quoted "CREATED" +:+ "}".

Definition lunch : Order :=
  {| OrderID := "20221"; CustomerName := "Siri"; Product := "Lunch Box";
     Quantity := 1; Status := "CREATED"; CreatedAt := EmptyString |}.

Definition flask_body : string :=
  "{" +:+ quoted "orderId" +:+ ":" +:+ quoted "20222" +:+ "," +:+
  quoted "customerName" +:+ ":" +:+ quoted "Ravi" +:+ "," +:+
  quoted "product" +:+ ":" +:+ quoted "Flask" +:+ "," +:+
  quoted "quantity" +:+ ":12," +:+
  quoted "status" +:+ ":" +:+ quoted "PAID" +:+ "," +:+
  quoted "createdAt" +:+ ":" +:+ quoted "2024-05-01T10:00:00Z" +:+ "}".

Definition flask : Order :=
  {| OrderID := "20222"; CustomerName := "Ravi"; Product := "Flask";
     Quantity := 12; Status := "PAID"; CreatedAt := "2024-05-01T10:00:00Z" |}.

Definition Unmarshal (body : string) : Order + error :=
  if decide (body = lunch_body) then inl lunch
  else if decide (body = flask_body) then inl flask
  else inr "unexpected end of JSON input"%string.

#[export] Instance libraries : Libraries.
Proof.
  refine {| Time := string;
            time_UTC := fun t => t;
            time_Format := fun t layout =>
              if decide (layout = RFC3339) then t else EmptyString;
            json_Unmarshal := Unmarshal |}.
  intros body order. unfold Unmarshal.
  destruct (decide (body = lunch_body));
    [| destruct (decide (body = flask_body))];
    intros [= <-]; vm_compute; split; discriminate.
Defined.

Definition noon : string := "2024-06-01T12:00:00Z".

Definition post (body : string) : Request :=
  {| APIGatewayProxyRequest.HTTPMethod := "POST";
     APIGatewayProxyRequest.PathParameters := ∅;
     APIGatewayProxyRequest.Body := body |}.

Definition get_all : Request :=
  {| APIGatewayProxyRequest.HTTPMethod := "GET";
     APIGatewayProxyRequest.PathParameters := ∅;
     APIGatewayProxyRequest.Body := EmptyString |}.

Definition get_one (orderId : string) : Request :=
  {| APIGatewayProxyRequest.HTTPMethod := "GET";
     APIGatewayProxyRequest.PathParameters := {[ "orderId"%string := orderId ]};
     APIGatewayProxyRequest.Body := EmptyString |}.

Definition delivery (req : Request) : Invocation :=
  {| request := req; at_time := noon; store_down := None |}.

(** Two orders created, the first of them twice. *)
Definition history : list Invocation :=
  [ delivery (post lunch_body); delivery (post flask_body);
    delivery (post lunch_body) ].

(** The world before any invocation, and after the history. *)
Definition fresh : World := start noon.
Definition stocked : World := after noon history.

(** A world whose store fails every call. *)
Definition store_failing : World :=
  {| clock := noon; table := ∅;
     outage := Some "RequestError: connection reset"%string;
     logged := []; calls := [] |}.

(** An item whose quantity DynamoDB can hold and a Go [int] cannot. *)
Definition huge_quantity : string := "99999999999999999999".
Definition huge_item : Item :=
  <[ "quantity"%string := AttributeValueMemberN huge_quantity ]> (orderItem lunch).

(** An item without a [status] attribute. *)
Definition statusless_item : Item := delete "status"%string (orderItem lunch).

(** A table that holds it. *)
Definition broken : World :=
  {| clock := noon; table := {[ "20221"%string := statusless_item ]};
     outage := None; logged := []; calls := [] |}.

End Sample.

(** ** Vocabulary of the further properties *)

(** The value of a text of decimal digits read after the value [n], and the
    test that a text is made of decimal digits only. *)
Fixpoint digits_value (n : Z) (s : string) : Z :=
  match s with
  | EmptyString => n
  | String ch rest => digits_value (n * 10 + (byte ch - 48)) rest
  end.

Fixpoint is_digits (s : string) : bool :=
  match s with
  | EmptyString => true
  | String ch rest => (48 <=? byte ch) && (byte ch <=? 57) && is_digits rest
  end.

(** The six attribute names [mapToOrder] reads. *)
Definition order_attributes : list string :=
  [ "orderId"; "customerName"; "product"; "quantity"; "status"; "createdAt" ]%string.

(** The table a store call addresses, and whether the call only reads. *)
Definition call_table (c : Call) : string :=
  match c with
  | CallPutItem params => PutItemInput.TableName params
  | CallScan params => ScanInput.TableName params
  | CallQuery params => QueryInput.TableName params
  end.

Definition is_read (c : Call) : bool :=
  match c with
  | CallPutItem _ => false
  | CallScan _ | CallQuery _ => true
  end.

(** The responses the handler has: an array of orders with status 200, one of
    six fixed messages with its status, or the plain text of status 405. *)
Definition answers (resp : Response) : Prop :=
  let status := APIGatewayProxyResponse.StatusCode resp in
  let body := APIGatewayProxyResponse.Body resp in
  (status = 200 /\ exists orders, body = json.Marshal_Orders orders) \/
  (status = 201 /\ body = message_json "Order created successfully") \/
  (status = 400 /\ body = message_json "Invalid request body") \/
  (status = 404 /\ body = message_json "Order not found") \/
  (status = 405 /\ body = "Method not allowed"%string) \/
  (status = 500 /\
   (body = message_json "Failed to create order" \/
    body = message_json "Failed to fetch orders" \/
    body = message_json "Failed to fetch order")).

Section Outcomes.
Context `{Libraries}.

(** [returns P m]: whatever the clock reads and the store answers, a value [m]
    returns satisfies [P]. *)
Fixpoint returns {A} (P : A -> Prop) (m : Lambda A) : Prop :=
  match m with
  | Return a => P a
  | Raise _ => True
  | Now k => forall now, returns P (k now)
  | Println _ k => returns P k
  | PutItem _ k => forall reply, returns P (k reply)
  | Scan _ k => forall reply, returns P (k reply)
  | Query _ k => forall reply, returns P (k reply)
  end.

(** [every_call Q m]: whatever the answers, each store call [m] makes
    satisfies [Q]. *)
Fixpoint every_call {A} (Q : Call -> Prop) (m : Lambda A) : Prop :=
  match m with
  | Return _ | Raise _ => True
  | Now k => forall now, every_call Q (k now)
  | Println _ k => every_call Q k
  | PutItem params k =>
      Q (CallPutItem params) /\ forall reply, every_call Q (k reply)
  | Scan params k =>
      Q (CallScan params) /\ forall reply, every_call Q (k reply)
  | Query params k =>
      Q (CallQuery params) /\ forall reply, every_call Q (k reply)
  end.

(** [calls_at_most n m]: whatever the answers, [m] makes no more than [n]
    store calls. *)
Fixpoint calls_at_most {A} (n : nat) (m : Lambda A) : Prop :=
  match m with
  | Return _ | Raise _ => True
  | Now k => forall now, calls_at_most n (k now)
  | Println _ k => calls_at_most n k
  | PutItem _ k =>
      match n with
      | O => False
      | S n => forall reply, calls_at_most n (k reply)
      end
  | Scan _ k =>
      match n with
      | O => False
      | S n => forall reply, calls_at_most n (k reply)
      end
  | Query _ k =>
      match n with
      | O => False
      | S n => forall reply, calls_at_most n (k reply)
      end
  end.

(** The log line a failed store call of the request leaves, if the request
    makes a store call at all. *)
Definition failure_line (req : Request) (err : error) : option (list string) :=
  if decide (APIGatewayProxyRequest.HTTPMethod req = http.MethodPost) then
    match json_Unmarshal (APIGatewayProxyRequest.Body req) with
    | inl _ => Some ["PutItem error:"%string; err]
    | inr _ => None
    end
  else if decide (APIGatewayProxyRequest.HTTPMethod req = http.MethodGet) then
    match identifier req with
    | Some _ => Some ["Query error:"%string; err]
    | None => Some ["Scan error:"%string; err]
    end
  else None.

End Outcomes.

(** * Properties *)

(** ** The conversions and the encoder on sample inputs *)

Example Itoa_samples :
  strconv.Itoa 0 = "0"%string /\ strconv.Itoa 42 = "42"%string /\
  strconv.Itoa (-7) = "-7"%string /\
  strconv.Itoa 1234567 = "1234567"%string /\
  strconv.Itoa MinInt = "-9223372036854775808"%string /\
  strconv.Itoa MaxInt = "9223372036854775807"%string.
Proof. repeat split; vm_compute; reflexivity. Qed.

Example Atoi_samples :
  fst (strconv.Atoi "42") = 42 /\ fst (strconv.Atoi "-7") = -7 /\
  fst (strconv.Atoi "+15") = 15 /\
  fst (strconv.Atoi "-9223372036854775808") = MinInt /\
  fst (strconv.Atoi "9223372036854775807") = MaxInt /\
  fst (strconv.Atoi "9223372036854775808") = MaxInt /\
  fst (strconv.Atoi "1.5") = 0 /\ fst (strconv.Atoi "12a") = 0 /\
  fst (strconv.Atoi "99999999999999999999") = MaxInt /\
  fst (strconv.Atoi "-99999999999999999999") = MinInt.
Proof. repeat split; vm_compute; reflexivity. Qed.

Example appendString_samples :
  json.appendString "Siri" = dquote +:+ "Siri" +:+ dquote /\
  json.appendString "a<b" = dquote +:+ "a" +:+ String json.backslash "u003cb" +:+ dquote /\
  json.appendString (String (chr 10) EmptyString)
    = dquote +:+ String json.backslash "n" +:+ dquote /\
  json.appendString (String (chr 195) (String (chr 169) "!"))
    = dquote +:+ String (chr 195) (String (chr 169) "!") +:+ dquote /\
  json.appendString (String (chr 226) (String (chr 128) (String (chr 168) "x")))
    = dquote +:+ String json.backslash "u2028x" +:+ dquote /\
  json.appendString (String (chr 255) "x")
    = dquote +:+ String json.backslash "ufffdx" +:+ dquote.
Proof. repeat split; vm_compute; reflexivity. Qed.

Example Marshal_map_sample :
  json.Marshal_map {[ "message"%string := "Order not found"%string ]}
  = "{" +:+ dquote +:+ "message" +:+ dquote +:+ ":" +:+
    dquote +:+ "Order not found" +:+ dquote +:+ "}".
Proof. vm_compute. reflexivity. Qed.

Example Marshal_Orders_sample :
  json.Marshal_Orders
    [ {| OrderID := "20221"; CustomerName := "Siri"; Product := "Lunch Box";
         Quantity := 1; Status := "CREATED"; CreatedAt := "2024-01-02T03:04:05Z" |} ]
  = "[{" +:+ json.member "orderId" (dquote +:+ "20221" +:+ dquote) +:+ "," +:+
    json.member "customerName" (dquote +:+ "Siri" +:+ dquote) +:+ "," +:+
    json.member "product" (dquote +:+ "Lunch Box" +:+ dquote) +:+ "," +:+
    json.member "quantity" "1" +:+ "," +:+
    json.member "status" (dquote +:+ "CREATED" +:+ dquote) +:+ "," +:+
    json.member "createdAt" (dquote +:+ "2024-01-02T03:04:05Z" +:+ dquote) +:+ "}]"
  /\ json.Marshal_Orders [] = "[]"%string.
Proof. split; vm_compute; reflexivity. Qed.

(** ** The conversions and the encoder on sample inputs *)


(** ** Decimal conversion *)
Section Decimal.
Import strconv.

Lemma byte_digit d : 0 <= d <= 9 -> byte (digit d) = 48 + d.
Proof.
  intros Hd.
  assert (Hc : d = 0 \/ d = 1 \/ d = 2 \/ d = 3 \/ d = 4 \/ d = 5 \/ d = 6
               \/ d = 7 \/ d = 8 \/ d = 9) by lia.
  repeat (destruct Hc as [-> | Hc]; [reflexivity |]); subst; reflexivity.
Qed.

Lemma uint64_small z : 0 <= z <= maxUint64 -> uint64 z = z.
Proof. unfold uint64, maxUint64. intros. apply Z.mod_small. lia. Qed.

Lemma int64_small z : is_int z -> int64 z = z.
Proof. unfold int64, is_int, MinInt, MaxInt. intros. rewrite Z.mod_small; lia. Qed.

Lemma ParseUint_loop_digit s0 d rest n :
  0 <= d <= 9 -> 0 <= n -> n * 10 + d <= maxUint64 ->
  ParseUint_loop s0 (String (digit d) rest) n = ParseUint_loop s0 rest (n * 10 + d).
Proof.
  intros Hd Hn Hmax. cbn [ParseUint_loop]. rewrite byte_digit by done.
  replace ((48 <=? 48 + d) && (48 + d <=? 57)) with true
    by (symmetry; apply andb_true_iff; split; apply Z.leb_le; lia).
  replace (48 + d - 48) with d by lia.
  replace (10 <=? d) with false by (symmetry; apply Z.leb_gt; lia).
  unfold maxUint64, intSize in *.
  replace ((2 ^ 64 - 1) / 10 + 1 <=? n) with false
    by (symmetry; apply Z.leb_gt; lia).
  rewrite (uint64_small (n * 10)) by (unfold maxUint64; lia).
  rewrite (uint64_small (n * 10 + d)) by (unfold maxUint64; lia).
  replace (n * 10 + d <? n * 10) with false by (symmetry; apply Z.ltb_ge; lia).
  replace (2 ^ 64 - 1 <? n * 10 + d) with false by (symmetry; apply Z.ltb_ge; lia).
  reflexivity.
Qed.

Lemma Atoi_loop_digit s0 d rest n :
  0 <= d <= 9 -> is_int (n * 10 + d) ->
  Atoi_loop s0 (String (digit d) rest) n = Atoi_loop s0 rest (n * 10 + d).
Proof.
  intros Hd Hn. cbn [Atoi_loop]. rewrite byte_digit by done.
  replace ((48 + d - 48) mod 256) with d by lia.
  replace (9 <? d) with false by (symmetry; apply Z.ltb_ge; lia).
  by rewrite int64_small.
Qed.

(** The digits [formatBits_loop] writes in front of [a] read back as [us],
    through either digit loop. *)
Lemma ParseUint_loop_formatBits s0 rounds : forall us a,
  0 <= us <= maxUint64 -> us < 100 * 100 ^ Z.of_nat rounds ->
  ParseUint_loop s0 (formatBits_loop rounds us a) 0 = ParseUint_loop s0 a us.
Proof.
  unfold maxUint64.
  induction rounds as [| rounds IH]; intros us a Hus Hlt.
  - cbn [formatBits_loop].
    replace (us <? 100) with true by (symmetry; apply Z.ltb_lt; simpl in Hlt; lia).
    destruct (Z.leb_spec 10 us).
    + rewrite !ParseUint_loop_digit by (unfold maxUint64; lia).
      f_equal. lia.
    + rewrite ParseUint_loop_digit by (unfold maxUint64; lia). f_equal. lia.
  - cbn [formatBits_loop]. destruct (Z.ltb_spec us 100).
    + destruct (Z.leb_spec 10 us).
      * rewrite !ParseUint_loop_digit by (unfold maxUint64; lia).
        f_equal. lia.
      * rewrite ParseUint_loop_digit by (unfold maxUint64; lia). f_equal. lia.
    + rewrite IH by
        (rewrite ?Nat2Z.inj_succ, ?Z.pow_succ_r in Hlt by lia; lia).
      rewrite !ParseUint_loop_digit by (unfold maxUint64; lia).
      f_equal. lia.
Qed.

Lemma Atoi_loop_formatBits s0 rounds : forall us a,
  0 <= us <= MaxInt -> us < 100 * 100 ^ Z.of_nat rounds ->
  Atoi_loop s0 (formatBits_loop rounds us a) 0 = Atoi_loop s0 a us.
Proof.
  unfold MaxInt.
  induction rounds as [| rounds IH]; intros us a Hus Hlt.
  - cbn [formatBits_loop].
    replace (us <? 100) with true by (symmetry; apply Z.ltb_lt; simpl in Hlt; lia).
    destruct (Z.leb_spec 10 us).
    + rewrite !Atoi_loop_digit by (unfold is_int, MinInt, MaxInt; lia).
      f_equal. lia.
    + rewrite Atoi_loop_digit by (unfold is_int, MinInt, MaxInt; lia).
      f_equal. lia.
  - cbn [formatBits_loop]. destruct (Z.ltb_spec us 100).
    + destruct (Z.leb_spec 10 us).
      * rewrite !Atoi_loop_digit by (unfold is_int, MinInt, MaxInt; lia).
        f_equal. lia.
      * rewrite Atoi_loop_digit by (unfold is_int, MinInt, MaxInt; lia).
        f_equal. lia.
    + rewrite IH by
        (rewrite ?Nat2Z.inj_succ, ?Z.pow_succ_r in Hlt by lia; lia).
      rewrite !Atoi_loop_digit by (unfold is_int, MinInt, MaxInt; lia).
      f_equal. lia.
Qed.

(** The text [formatBits_loop] returns starts with a digit. *)
Lemma formatBits_loop_head rounds : forall us a,
  0 <= us -> us < 100 * 100 ^ Z.of_nat rounds ->
  exists d rest, 0 <= d <= 9 /\ formatBits_loop rounds us a = String (digit d) rest.
Proof.
  induction rounds as [| rounds IH]; intros us a Hus Hlt.
  - cbn [formatBits_loop].
    replace (us <? 100) with true by (symmetry; apply Z.ltb_lt; simpl in Hlt; lia).
    destruct (Z.leb_spec 10 us); eexists _, _; (split; [| reflexivity]); lia.
  - cbn [formatBits_loop]. destruct (Z.ltb_spec us 100).
    + destruct (Z.leb_spec 10 us); eexists _, _; (split; [| reflexivity]); lia.
    + apply IH; [lia |].
      rewrite ?Nat2Z.inj_succ, ?Z.pow_succ_r in Hlt by lia. lia.
Qed.

(** [Itoa] writes an optional minus sign and the digits of the magnitude. *)
Lemma Itoa_digits i :
  MinInt < i <= MaxInt ->
  Itoa i = if i <? 0
           then String (chr 45) (formatBits_loop 10 (- i) EmptyString)
           else formatBits_loop 10 i EmptyString.
Proof.
  unfold MinInt, MaxInt. intros Hi. unfold Itoa.
  rewrite int64_small by (unfold is_int, MinInt, MaxInt; lia).
  unfold FormatInt. destruct (Z.ltb_spec i 0) as [Hneg | Hpos].
  - replace (0 <=? i) with false by (symmetry; apply Z.leb_gt; lia).
    cbn [andb]. unfold formatBits.
    replace (uint64 (- uint64 i)) with (- i); [reflexivity |].
    unfold uint64. lia.
  - replace (0 <=? i) with true by (symmetry; apply Z.leb_le; lia).
    cbn [andb]. destruct (Z.ltb_spec i 100) as [Hsmall | Hbig].
    + unfold small. cbn [formatBits_loop].
      replace (i <? 100) with true by (symmetry; apply Z.ltb_lt; lia).
      destruct (Z.ltb_spec i 10), (Z.leb_spec 10 i); try lia.
      * do 2 f_equal. lia.
      * reflexivity.
    + unfold formatBits. by rewrite uint64_small by (unfold maxUint64; lia).
Qed.

Lemma byte_digit_not_sign d : 0 <= d <= 9 ->
  (byte (digit d) =? 45) = false /\ (byte (digit d) =? 43) = false.
Proof. intros Hd. rewrite byte_digit by done. split; apply Z.eqb_neq; lia. Qed.

(** Reading back the digits of a magnitude [u], with or without sign, on the
    slow path. *)
Lemma ParseInt_digits (neg : bool) u :
  0 <= u <= MaxInt ->
  ParseInt (if neg then String (chr 45) (formatBits_loop 10 u EmptyString)
            else formatBits_loop 10 u EmptyString)
  = ((if neg then - u else u), None).
Proof.
  unfold MaxInt. intros Hu.
  assert (Hlt : u < 100 * 100 ^ Z.of_nat 10) by (change (100 * 100 ^ Z.of_nat 10) with (100 * 100 ^ 10); lia).
  destruct (formatBits_loop_head 10 u EmptyString) as (d & rest & Hd & Hhead);
    [lia | done |].
  assert (HU : ParseUint (formatBits_loop 10 u EmptyString) = (u, None)).
  { unfold ParseUint. rewrite Hhead. rewrite <- Hhead.
    rewrite ParseUint_loop_formatBits by (unfold maxUint64; first [lia | done]).
    reflexivity. }
  destruct (byte_digit_not_sign d Hd) as [Hminus Hplus].
  destruct neg.
  - unfold ParseInt.
    change (byte (chr 45) =? 43) with false.
    change (byte (chr 45) =? 45) with true.
    cbv beta iota. rewrite HU. cbv beta iota zeta.
    unfold intSize.
    replace (2 ^ (64 - 1) <? u) with false by (symmetry; apply Z.ltb_ge; lia).
    cbn [negb andb].
    rewrite (int64_small u) by (unfold is_int, MinInt, MaxInt; lia).
    by rewrite int64_small by (unfold is_int, MinInt, MaxInt; lia).
  - unfold ParseInt. rewrite Hhead. rewrite Hplus, Hminus.
    rewrite <- Hhead. cbv beta iota. rewrite HU. cbv beta iota zeta.
    unfold intSize.
    replace (2 ^ (64 - 1) <=? u) with false by (symmetry; apply Z.leb_gt; lia).
    cbn [negb andb].
    by rewrite int64_small by (unfold is_int, MinInt, MaxInt; lia).
Qed.

(** The same on the fast path, whatever the length test said. *)
Lemma Atoi_digits (neg : bool) u :
  0 <= u <= MaxInt ->
  Atoi (if neg then String (chr 45) (formatBits_loop 10 u EmptyString)
        else formatBits_loop 10 u EmptyString)
  = ((if neg then - u else u), None).
Proof.
  intros Hu. unfold Atoi.
  match goal with |- (if ?c then _ else _) = _ => destruct c end;
    [| by rewrite ParseInt_digits].
  assert (Hlt : u < 100 * 100 ^ Z.of_nat 10)
    by (change (100 * 100 ^ Z.of_nat 10) with (100 * 100 ^ 10);
        unfold MaxInt in Hu; lia).
  destruct (formatBits_loop_head 10 u EmptyString) as (d & rest & Hd & Hhead);
    [lia | done |].
  destruct (byte_digit_not_sign d Hd) as [Hminus Hplus].
  destruct neg.
  - change (byte (chr 45) =? 45) with true. cbn [orb andb].
    replace (len (formatBits_loop 10 u EmptyString) <? 1) with false
      by (rewrite Hhead; unfold len; cbn [String.length];
          symmetry; apply Z.ltb_ge; lia).
    rewrite Atoi_loop_formatBits by done. cbn [Atoi_loop].
    by rewrite int64_small by (unfold is_int, MinInt, MaxInt in *; lia).
  - rewrite Hhead. rewrite Hminus, Hplus. cbn [orb andb].
    rewrite <- Hhead. rewrite Atoi_loop_formatBits by done.
    reflexivity.
Qed.

Lemma Atoi_Itoa i : is_int i -> Atoi (Itoa i) = (i, None).
Proof.
  intros Hi. destruct (decide (i = MinInt)) as [-> | Hmin].
  { vm_compute. reflexivity. }
  unfold is_int in Hi. rewrite Itoa_digits by lia.
  destruct (Z.ltb_spec i 0).
  - rewrite (Atoi_digits true (- i)) by (unfold MinInt, MaxInt in *; lia).
    f_equal. lia.
  - by rewrite (Atoi_digits false i) by lia.
Qed.

(** What a failed conversion leaves as its value: nothing on a syntax error,
    the largest value on a range error. *)
Lemma ParseUint_loop_failed s0 cs : forall n v e,
  ParseUint_loop s0 cs n = (v, Some e) ->
  match Err_ e with
  | ErrSyntax => v = 0
  | ErrRange => v = maxUint64
  end.
Proof.
  induction cs as [| ch rest IH]; intros n v e; cbn [ParseUint_loop].
  - congruence.
  - intros Hloop. cbv zeta in Hloop.
    repeat (match type of Hloop with
            | context [if ?c then _ else _] => destruct c
            end; cbv beta iota in Hloop);
      first [ by injection Hloop as <- <- | by apply IH in Hloop ].
Qed.

Lemma Atoi_loop_failed s0 cs : forall n v e,
  Atoi_loop s0 cs n = (v, Some e) -> v = 0 /\ Err_ e = ErrSyntax.
Proof.
  induction cs as [| ch rest IH]; intros n v e; cbn [Atoi_loop].
  - congruence.
  - destruct (9 <? _).
    + by intros [= <- <-].
    + apply IH.
Qed.

Lemma ParseInt_failed s v e :
  ParseInt s = (v, Some e) ->
  match Err_ e with
  | ErrSyntax => v = 0
  | ErrRange => v = MaxInt \/ v = MinInt
  end.
Proof.
  unfold ParseInt. destruct s as [| c0 rest]; [by intros [= <- <-] |].
  destruct (if byte c0 =? 43 then _ else _) as [neg s].
  destruct (ParseUint s) as [un err]. intros Hparse.
  repeat (match type of Hparse with
          | context [if ?c then _ else _] => destruct c
          end; cbv beta iota in Hparse);
    first [ discriminate Hparse
          | injection Hparse as <- <-; cbn [Err_ rangeError];
            first [reflexivity | by left | by right] ].
Qed.

Lemma Atoi_failed s v e :
  Atoi s = (v, Some e) ->
  match Err_ e with
  | ErrSyntax => v = 0
  | ErrRange => v = MaxInt \/ v = MinInt
  end.
Proof.
  unfold Atoi. destruct ((0 <? len s) && (len s <? 19)).
  - destruct s as [| c0 rest]; [by intros [= <- <-] |].
    destruct (_ && _); [by intros [= <- <-] |].
    destruct (Atoi_loop _ _ 0) as [n [e' |]] eqn:Hloop; [| cbn; intros Hread; discriminate Hread].
    intros [= <- <-]. by destruct (Atoi_loop_failed _ _ _ _ _ Hloop) as [-> ->].
  - destruct (ParseInt s) as [i64 [nerr |]] eqn:Hparse; [| cbn; intros Hread; discriminate Hread].
    intros [= <- <-]. cbn [Err_]. exact (ParseInt_failed _ _ _ Hparse).
Qed.

End Decimal.

(** ** The mapping between orders and store items *)
Section Mapping.

Lemma atoi_intToString i : is_int i -> atoi (intToString i) = i.
Proof. intros Hi. unfold atoi, intToString. by rewrite Atoi_Itoa. Qed.

Lemma orderItem_lookup order :
  orderItem order !! "orderId"%string = Some (AttributeValueMemberS (OrderID order)) /\
  orderItem order !! "customerName"%string
    = Some (AttributeValueMemberS (CustomerName order)) /\
  orderItem order !! "product"%string = Some (AttributeValueMemberS (Product order)) /\
  orderItem order !! "quantity"%string
    = Some (AttributeValueMemberN (intToString (Quantity order))) /\
  orderItem order !! "status"%string = Some (AttributeValueMemberS (Status order)) /\
  orderItem order !! "createdAt"%string
    = Some (AttributeValueMemberS (CreatedAt order)).
Proof. repeat split; reflexivity. Qed.

(** Reading back what [createOrder] wrote gives the order it wrote. *)
Lemma mapToOrder_orderItem order :
  is_int (Quantity order) -> mapToOrder (orderItem order) = Val order.
Proof.
  intros Hq. destruct (orderItem_lookup order) as (H1 & H2 & H3 & H4 & H5 & H6).
  unfold mapToOrder. rewrite H1, H2, H3, H4, H5, H6. cbn.
  rewrite atoi_intToString by done. by destruct order.
Qed.

End Mapping.

(** ** The fetch loop *)
Section FetchLoop.

Lemma range_Items_Forall2 items : forall orders acc,
  Forall2 (fun item order => mapToOrder item = Val order) items orders ->
  range_Items items acc = Val (acc ++ orders).
Proof.
  induction items as [| item items IH]; intros orders acc Hall;
    inversion Hall as [| ? order ? rest Hitem Hrest]; subst; cbn.
  - by rewrite app_nil_r.
  - rewrite Hitem. cbn. rewrite (IH rest) by done. by rewrite <- app_assoc.
Qed.

Lemma range_Items_Val items : forall acc result,
  range_Items items acc = Val result ->
  exists orders,
    result = acc ++ orders /\
    Forall2 (fun item order => mapToOrder item = Val order) items orders.
Proof.
  induction items as [| item items IH]; intros acc result; cbn.
  - intros [= <-]. exists []. by rewrite app_nil_r.
  - destruct (mapToOrder item) as [order |] eqn:Hitem; cbn; [| done].
    intros (orders & -> & Hall)%IH. exists (order :: orders).
    split; [by rewrite <- app_assoc | by constructor].
Qed.

Lemma range_Items_panic items item : forall acc,
  item ∈ items -> (exists e, mapToOrder item = Panic e) ->
  exists e, range_Items items acc = Panic e.
Proof.
  intros acc Hin [e He]. revert acc.
  induction Hin as [item items | item other items Hin IH]; intros acc; cbn.
  - rewrite He. by exists e.
  - destruct (mapToOrder other); cbn; [by apply IH | by eexists].
Qed.

(** Items written by [createOrder] are read back one for one, in order. *)
Lemma range_Items_orderItem orders :
  Forall (fun order => is_int (Quantity order)) orders ->
  range_Items (orderItem <$> orders) [] = Val orders.
Proof.
  intros Hall. apply (range_Items_Forall2 _ orders []).
  induction Hall as [| order orders Hq Hall IH]; cbn; constructor;
    [by apply mapToOrder_orderItem | exact IH].
Qed.

End FetchLoop.

(** ** The store behind the three calls *)
Section Store.

Lemma store_PutItem_orderItem order tbl :
  store_PutItem {| PutItemInput.TableName := tableName;
                   PutItemInput.Item := orderItem order |} tbl
  = (inl {| PutItemOutput.Attributes := ∅ |},
     <[ OrderID order := orderItem order ]> tbl).
Proof.
  unfold store_PutItem. cbn [PutItemInput.TableName PutItemInput.Item].
  rewrite decide_True by done.
  by destruct (orderItem_lookup order) as [-> _].
Qed.

Lemma store_Scan_tableName tbl :
  store_Scan {| ScanInput.TableName := tableName |} tbl
  = inl {| ScanOutput.Items := (map_to_list tbl).*2 |}.
Proof. unfold store_Scan. cbn. by rewrite decide_True. Qed.

Lemma store_Query_orderId orderId tbl :
  store_Query
    {| QueryInput.TableName := tableName;
       QueryInput.KeyConditionExpression := "orderId = :oid";
       QueryInput.ExpressionAttributeValues :=
         {[ ":oid"%string := AttributeValueMemberS orderId ]} |} tbl
  = inl {| QueryOutput.Items := option_list (tbl !! orderId) |}.
Proof.
  unfold store_Query.
  cbn [QueryInput.TableName QueryInput.KeyConditionExpression
       QueryInput.ExpressionAttributeValues].
  rewrite !decide_True by done. by rewrite lookup_singleton_eq.
Qed.

End Store.

(** ** Invocations against the table *)
Section Invocations.
Context `{Libraries}.

#[local] Arguments json.Marshal_map : simpl never.
#[local] Arguments json.Marshal_Orders : simpl never.
#[local] Arguments orderItem : simpl never.
#[local] Arguments store_PutItem : simpl never.
#[local] Arguments store_Scan : simpl never.
#[local] Arguments store_Query : simpl never.

(** What each operation does to the table and what it answers, store up. *)
Lemma run_createOrder req order w :
  json_Unmarshal (APIGatewayProxyRequest.Body req) = inl order ->
  outage w = None ->
  let written := stamped order (clock w) in
  (run (createOrder req) w).1
    = Val ({| APIGatewayProxyResponse.StatusCode := 201;
              APIGatewayProxyResponse.Body :=
                json.Marshal_map {[ "message"%string := "Order created successfully"%string ]} |},
           nil) /\
  table (run (createOrder req) w).2
    = <[ OrderID written := orderItem written ]> (table w) /\
  calls (run (createOrder req) w).2
    = calls w ++ [ CallPutItem {| PutItemInput.TableName := tableName;
                                  PutItemInput.Item := orderItem written |} ].
Proof.
  intros Hbody Hup. unfold createOrder, stamped. rewrite Hbody.
  destruct (decide (CreatedAt order = EmptyString)); cbn;
    rewrite Hup, store_PutItem_orderItem; cbn; done.
Qed.

Lemma run_createOrder_down req order err w :
  json_Unmarshal (APIGatewayProxyRequest.Body req) = inl order ->
  outage w = Some err ->
  (run (createOrder req) w).1
    = Val ({| APIGatewayProxyResponse.StatusCode := 500;
              APIGatewayProxyResponse.Body :=
                json.Marshal_map {[ "message"%string := "Failed to create order"%string ]} |},
           nil) /\
  table (run (createOrder req) w).2 = table w /\
  calls (run (createOrder req) w).2
    = calls w ++ [ CallPutItem {| PutItemInput.TableName := tableName;
                                  PutItemInput.Item :=
                                    orderItem (stamped order (clock w)) |} ].
Proof.
  intros Hbody Hdown. unfold createOrder, stamped. rewrite Hbody.
  destruct (decide (CreatedAt order = EmptyString)); cbn;
    rewrite Hdown; cbn; done.
Qed.

Lemma run_createOrder_invalid req err w :
  json_Unmarshal (APIGatewayProxyRequest.Body req) = inr err ->
  run (createOrder req) w
  = (Val ({| APIGatewayProxyResponse.StatusCode := 400;
             APIGatewayProxyResponse.Body :=
               json.Marshal_map {[ "message"%string := "Invalid request body"%string ]} |},
          nil), w).
Proof. intros Hbody. unfold createOrder. by rewrite Hbody. Qed.

Lemma run_getAllOrders_table w : table (run getAllOrders w).2 = table w.
Proof.
  unfold getAllOrders. cbn.
  destruct (outage w); [done |]. rewrite store_Scan_tableName. cbn.
  by destruct (range_Items _ _).
Qed.

Lemma run_getOrderByID_table orderId w :
  table (run (getOrderByID orderId) w).2 = table w.
Proof.
  unfold getOrderByID. cbn.
  destruct (outage w); [done |]. rewrite store_Query_orderId. cbn.
  destruct (decide _); [done |]. by destruct (range_Items _ _).
Qed.

Lemma handler_POST req :
  APIGatewayProxyRequest.HTTPMethod req = http.MethodPost ->
  handler req = createOrder req.
Proof. intros Hpost. unfold handler. by rewrite decide_True. Qed.

(** A GET goes to fetch-one when the request carries an identifier, and to
    fetch-all otherwise. *)
Lemma handler_GET req :
  APIGatewayProxyRequest.HTTPMethod req = http.MethodGet ->
  handler req = match identifier req with
                | Some orderId => getOrderByID orderId
                | None => getAllOrders
                end.
Proof.
  intros Hget. unfold handler, identifier. rewrite Hget.
  rewrite decide_False by done. rewrite decide_True by done.
  destruct (_ !! _) as [orderId |]; [| done].
  by destruct (decide (orderId ≠ EmptyString)), (decide (orderId = EmptyString)).
Qed.

End Invocations.

(** ** Histories of invocations *)
Section Histories.
Context `{Libraries}.

#[local] Arguments orderItem : simpl never.

Lemma stamped_int order now :
  is_int (Quantity order) -> is_int (Quantity (stamped order now)).
Proof. unfold stamped. by destruct (decide _). Qed.

Lemma stamped_OrderID order now : OrderID (stamped order now) = OrderID order.
Proof. unfold stamped. by destruct (decide _). Qed.

(** An invocation changes the table exactly when it is a create that the
    decoder and the store both accept. *)
Lemma step_table w inv :
  table (step w inv)
  = match created inv with
    | Some order => <[ OrderID order := orderItem order ]> (table w)
    | None => table w
    end.
Proof.
  unfold step, invoke, handler, created.
  destruct (decide (_ = http.MethodPost)) as [Hpost | Hpost].
  - destruct (json_Unmarshal _) as [order | err] eqn:Hbody.
    + destruct (store_down inv) as [err |] eqn:Hdown.
      * by destruct (run_createOrder_down (request inv) order err
                      (arrive inv w) Hbody Hdown) as (_ & -> & _).
      * by destruct (run_createOrder (request inv) order
                      (arrive inv w) Hbody Hdown) as (_ & -> & _).
    + rewrite (run_createOrder_invalid _ err) by done.
      by destruct (store_down inv).
  - destruct (decide (_ = http.MethodGet)); [| done].
    destruct (_ !! _) as [orderId |]; [destruct (decide _) |];
      by rewrite ?run_getAllOrders_table, ?run_getOrderByID_table.
Qed.

Lemma after_snoc now history inv :
  after now (history ++ [inv]) = step (after now history) inv.
Proof. unfold after. by rewrite foldl_snoc. Qed.

Lemma records_snoc history inv :
  records (history ++ [inv])
  = match created inv with
    | Some order => <[ OrderID order := order ]> (records history)
    | None => records history
    end.
Proof. unfold records. by rewrite foldl_snoc. Qed.

Lemma created_int inv order :
  created inv = Some order -> is_int (Quantity order).
Proof.
  unfold created. destruct (decide _); [| done].
  destruct (store_down inv); [done |].
  destruct (json_Unmarshal _) as [decoded |] eqn:Hbody; [| done].
  intros [= <-]. apply stamped_int. by eapply json_Unmarshal_int.
Qed.

(** Every record has a quantity in range and sits under its own identifier. *)
Lemma records_keyed history :
  map_Forall (fun orderId order =>
                OrderID order = orderId /\ is_int (Quantity order))
             (records history).
Proof.
  induction history as [| inv history IH] using rev_ind.
  - apply map_Forall_empty.
  - rewrite records_snoc.
    destruct (created inv) as [order |] eqn:Hinv; [| done].
    apply map_Forall_insert_2; [| done].
    split; [done | by eapply created_int].
Qed.

(** The table holds, under each identifier, the item of the record created
    last under it. *)
Lemma after_table now history :
  table (after now history) = orderItem <$> records history.
Proof.
  induction history as [| inv history IH] using rev_ind.
  - symmetry. apply fmap_empty.
  - rewrite after_snoc, records_snoc, step_table, IH.
    destruct (created inv) as [order |]; [| done]. by rewrite fmap_insert.
Qed.

End Histories.

(** ** Fetch-all *)
Section FetchAll.
Context `{Libraries}.

#[local] Arguments json.Marshal_map : simpl never.
#[local] Arguments json.Marshal_Orders : simpl never.
#[local] Arguments orderItem : simpl never.
#[local] Arguments store_Scan : simpl never.

(** The records of a history, each once. *)
Lemma records_NoDup history : NoDup (map_to_list (records history)).*2.
Proof.
  apply (NoDup_fmap_1 OrderID).
  pose proof (records_keyed history) as Hall.
  apply map_Forall_to_list in Hall.
  replace (OrderID <$> (map_to_list (records history)).*2)
    with (map_to_list (records history)).*1;
    [apply NoDup_fst_map_to_list |].
  induction Hall as [| [orderId order] rest [Hid _] _ IH]; cbn in *;
    [done | by rewrite Hid, IH].
Qed.

(** What a scan of the table of a history hands to the fetch loop, and what
    the loop makes of it. *)
Lemma run_getAllOrders_after now history w :
  table w = table (after now history) -> outage w = None ->
  (run getAllOrders w).1
  = Val ({| APIGatewayProxyResponse.StatusCode := 200;
            APIGatewayProxyResponse.Body :=
              json.Marshal_Orders (map_to_list (records history)).*2 |}, nil).
Proof.
  intros Htable Hup. pose proof (records_keyed history) as Hall.
  unfold getAllOrders. cbn. rewrite Hup, store_Scan_tableName. cbn.
  rewrite Htable, after_table, map_to_list_fmap.
  replace ((prod_map id orderItem <$> map_to_list (records history)).*2)
    with (orderItem <$> (map_to_list (records history)).*2)
    by (rewrite <- !list_fmap_compose; by apply list_fmap_ext; intros []).
  rewrite range_Items_orderItem; [done |].
  apply map_Forall_to_list in Hall. apply Forall_fmap.
  eapply Forall_impl; [exact Hall |]. by intros [] [].
Qed.


End FetchAll.

(** ** The quantity attribute *)
Section QuantityAttribute.

(** C6: a quantity that is a Go [int], written by create as the decimal text
    of [intToString] and read back by a fetch through [atoi], is the original
    integer; so is the quantity of the order read back from the written
    item. *)
Theorem quantity_round_trip (i : Z) :
  is_int i ->
  atoi (intToString i) = i /\
  forall order,
    Quantity order = i ->
    orderItem order !! "quantity"%string
      = Some (AttributeValueMemberN (intToString i)) /\
    exists read, mapToOrder (orderItem order) = Val read /\ Quantity read = i.
Proof.
  intros Hi. split; [by apply atoi_intToString |].
  intros order <-. split; [apply orderItem_lookup |].
  exists order. split; [by apply mapToOrder_orderItem | done].
Qed.

(** [mapToOrder] succeeds on the items of the asserted shape, with the
    quantity [atoi] makes of the numeric text. *)
Lemma mapToOrder_order_shaped item s :
  order_shaped item ->
  item !! "quantity"%string = Some (AttributeValueMemberN s) ->
  exists order, mapToOrder item = Val order /\ Quantity order = atoi s.
Proof.
  intros ([s1 H1] & [s2 H2] & [s3 H3] & [s4 H4] & [s5 H5] & [s6 H6]) Hq.
  rewrite Hq in H4. injection H4 as <-.
  unfold mapToOrder. rewrite H1, H2, H3, Hq, H5, H6. cbn. by eexists.
Qed.


End QuantityAttribute.

(** ** Items of another shape *)
Section Shape.
Context `{Libraries}.

#[local] Arguments json.Marshal_Orders : simpl never.

Lemma mapToOrder_misshaped item :
  ~ order_shaped item -> exists e, mapToOrder item = Panic e.
Proof.
  intros Hnot. unfold mapToOrder.
  destruct (item !! "orderId"%string) as [[] |] eqn:H1; cbn; try (by eexists).
  destruct (item !! "customerName"%string) as [[] |] eqn:H2; cbn;
    try (by eexists).
  destruct (item !! "product"%string) as [[] |] eqn:H3; cbn; try (by eexists).
  destruct (item !! "quantity"%string) as [[] |] eqn:H4; cbn; try (by eexists).
  destruct (item !! "status"%string) as [[] |] eqn:H5; cbn; try (by eexists).
  destruct (item !! "createdAt"%string) as [[] |] eqn:H6; cbn; try (by eexists).
  exfalso. apply Hnot. unfold order_shaped, holds_S, holds_N. naive_solver.
Qed.

(** C9: [mapToOrder] is not total.  On any item in which one of the six
    attributes is absent or of another attribute type, the type assertion
    panics; and a scan or a query that returns such an item makes fetch-all,
    or fetch-one, end in a panic instead of a response. *)
Theorem mapToOrder_not_total item :
  ~ order_shaped item ->
  (exists e, mapToOrder item = Panic e) /\
  (forall items rest w,
     item ∈ items ->
     on_Scan getAllOrders (inl {| ScanOutput.Items := items |}) = Some rest ->
     exists e, (run rest w).1 = Panic e) /\
  (forall orderId items rest w,
     item ∈ items ->
     on_Query (getOrderByID orderId) (inl {| QueryOutput.Items := items |})
       = Some rest ->
     exists e, (run rest w).1 = Panic e).
Proof.
  intros Hnot. pose proof (mapToOrder_misshaped item Hnot) as Hpanic.
  split; [done | split].
  - intros items rest w Hin [= <-]. cbn.
    destruct (range_Items_panic items item [] Hin Hpanic) as [e ->].
    by exists e.
  - intros orderId items rest w Hin [= <-]. cbn.
    destruct (decide (length items = 0%nat)) as [Hlen | _].
    { destruct items; [by apply elem_of_nil in Hin | done]. }
    destruct (range_Items_panic items item [] Hin Hpanic) as [e ->].
    by exists e.
Qed.

End Shape.

(** ** Response bodies *)
Section Bodies.

Lemma htmlSafeSet_ascii b : json.htmlSafeSet b = true -> (b <? 128) = true.
Proof.
  unfold json.htmlSafeSet. intros Hsafe.
  apply andb_true_iff in Hsafe as [Hsafe _].
  by apply andb_true_iff in Hsafe as [_ ?].
Qed.

Lemma appendString_loop_plain s :
  plain s = true -> json.appendString_loop 0 true s = s.
Proof.
  induction s as [| ch rest IH]; cbn [plain json.appendString_loop]; [done |].
  intros [Hsafe Hrest]%andb_true_iff.
  rewrite (htmlSafeSet_ascii _ Hsafe), Hsafe. by rewrite IH.
Qed.

Lemma appendString_plain s : plain s = true -> json.appendString s = quoted s.
Proof.
  intros Hs. unfold json.appendString, quoted. by rewrite appendString_loop_plain.
Qed.

(** The body [response] builds for a message with nothing to escape. *)
Lemma Marshal_map_message msg :
  plain msg = true ->
  json.Marshal_map {[ "message"%string := msg ]} = message_json msg.
Proof.
  intros Hmsg. unfold json.Marshal_map, message_json.
  rewrite map_to_list_singleton. cbn.
  rewrite (appendString_plain msg Hmsg).
  by rewrite (appendString_plain "message") by done.
Qed.

(** The array of one order or more is not the empty array. *)
Lemma Marshal_Orders_cons order orders :
  json.Marshal_Orders (order :: orders) <> "[]"%string.
Proof.
  unfold json.Marshal_Orders, json.Marshal_Order.
  destruct orders; cbn [fmap list_fmap json.join]; intros [=].
Qed.

End Bodies.

(** ** The handler *)
Section Handler.
Context `{Libraries}.

#[local] Arguments json.Marshal_map : simpl never.
#[local] Arguments json.Marshal_Orders : simpl never.
#[local] Arguments orderItem : simpl never.
#[local] Arguments store_PutItem : simpl never.
#[local] Arguments store_Scan : simpl never.
#[local] Arguments store_Query : simpl never.

Lemma stamped_fields order now :
  stamped order now
  = {| OrderID := OrderID order;
       CustomerName := CustomerName order;
       Product := Product order;
       Quantity := Quantity order;
       Status := Status order;
       CreatedAt := if decide (CreatedAt order = EmptyString)
                    then time_Format (time_UTC now) RFC3339
                    else CreatedAt order |}.
Proof. unfold stamped. destruct (decide _); [done | by destruct order]. Qed.


(** C3: for a POST whose body decodes to [order], the record handed to the
    store carries the input's orderId, customerName, product, quantity (as its
    decimal text) and status, and as createdAt the input's, or, when that is
    empty, the clock's UTC reading in RFC3339 format; read back, the record is
    that order.  When the store takes the write the table holds the record
    under the order's identifier. *)
Theorem createOrder_writes_input req order w :
  APIGatewayProxyRequest.HTTPMethod req = http.MethodPost ->
  json_Unmarshal (APIGatewayProxyRequest.Body req) = inl order ->
  let createdAt := if decide (CreatedAt order = EmptyString)
                   then time_Format (time_UTC (clock w)) RFC3339
                   else CreatedAt order in
  exists item,
    calls (invoke req w).2
    = calls w ++ [ CallPutItem {| PutItemInput.TableName := "Orders";
                                  PutItemInput.Item := item |} ] /\
    item !! "orderId"%string = Some (AttributeValueMemberS (OrderID order)) /\
    item !! "customerName"%string
      = Some (AttributeValueMemberS (CustomerName order)) /\
    item !! "product"%string = Some (AttributeValueMemberS (Product order)) /\
    item !! "quantity"%string
      = Some (AttributeValueMemberN (intToString (Quantity order))) /\
    item !! "status"%string = Some (AttributeValueMemberS (Status order)) /\
    item !! "createdAt"%string = Some (AttributeValueMemberS createdAt) /\
    mapToOrder item
    = Val {| OrderID := OrderID order;
             CustomerName := CustomerName order;
             Product := Product order;
             Quantity := Quantity order;
             Status := Status order;
             CreatedAt := createdAt |} /\
    (outage w = None -> table (invoke req w).2 !! OrderID order = Some item).
Proof.
  intros Hpost Hbody createdAt.
  exists (orderItem (stamped order (clock w))).
  pose proof (json_Unmarshal_int _ _ Hbody) as Hint.
  split.
  { unfold invoke. rewrite (handler_POST req Hpost).
    destruct (outage w) as [err |] eqn:Hout.
    - by destruct (run_createOrder_down req order err w Hbody Hout) as (_ & _ & ->).
    - by destruct (run_createOrder req order w Hbody Hout) as (_ & _ & ->). }
  subst createdAt. rewrite <- (stamped_fields order (clock w)).
  rewrite (mapToOrder_orderItem (stamped order (clock w)))
    by (by apply stamped_int).
  destruct (orderItem_lookup (stamped order (clock w)))
    as (H1 & H2 & H3 & H4 & H5 & H6).
  rewrite H1, H2, H3, H4, H5, H6.
  assert (Htable : outage w = None ->
            table (invoke req w).2 !! OrderID order
            = Some (orderItem (stamped order (clock w)))).
  { intros Hup. unfold invoke. rewrite (handler_POST req Hpost).
    destruct (run_createOrder req order w Hbody Hup) as (_ & -> & _).
    cbv zeta. rewrite stamped_OrderID. apply lookup_insert_eq. }
  revert Htable. generalize (invoke req w).2. intros w' Htable.
  unfold stamped in *. destruct (decide (CreatedAt order = EmptyString));
    repeat (split; [done |]); done.
Qed.

(** C4: a POST whose body the decoder rejects is answered with status 400 and
    the body [{"message":"Invalid request body"}]; the handler returns at once,
    so that no store call is made and the table is as before. *)
Theorem createOrder_rejects_bad_body req err w :
  APIGatewayProxyRequest.HTTPMethod req = http.MethodPost ->
  json_Unmarshal (APIGatewayProxyRequest.Body req) = inr err ->
  let bad_request :=
    ({| APIGatewayProxyResponse.StatusCode := 400;
        APIGatewayProxyResponse.Body := message_json "Invalid request body" |},
     nil) in
  handler req = Return bad_request /\
  invoke req w = (Val bad_request, w) /\
  calls (invoke req w).2 = calls w /\
  table (invoke req w).2 = table w.
Proof.
  intros Hpost Hbody bad_request.
  assert (Htree : handler req = Return bad_request).
  { rewrite (handler_POST req Hpost). unfold createOrder, response.
    rewrite Hbody. by rewrite Marshal_map_message. }
  unfold invoke. by rewrite Htree.
Qed.

End Handler.

(** ** Fetch-one and dispatch *)
Section Dispatch.
Context `{Libraries}.

#[local] Arguments json.Marshal_map : simpl never.
#[local] Arguments json.Marshal_Orders : simpl never.
#[local] Arguments store_Query : simpl never.

(** How fetch-one goes on after any answer to its query. *)
Lemma getOrderByID_on_Query orderId reply rest w :
  on_Query (getOrderByID orderId) reply = Some rest ->
  match reply with
  | inr err =>
      (run rest w).1
      = Val ({| APIGatewayProxyResponse.StatusCode := 500;
                APIGatewayProxyResponse.Body :=
                  message_json "Failed to fetch order" |}, nil)
  | inl out =>
      match QueryOutput.Items out with
      | [] =>
          run rest w
          = (Val ({| APIGatewayProxyResponse.StatusCode := 404;
                     APIGatewayProxyResponse.Body :=
                       message_json "Order not found" |}, nil), w)
      | item :: items =>
          (exists e, (run rest w).1 = Panic e) \/
          (exists order orders,
             (run rest w).1
             = Val ({| APIGatewayProxyResponse.StatusCode := 200;
                       APIGatewayProxyResponse.Body :=
                         json.Marshal_Orders (order :: orders) |}, nil))
      end
  end.
Proof.
  intros [= <-]. destruct reply as [[items] | err]; cbn.
  - destruct items as [| item items]; cbn.
    + rewrite decide_True by done. cbn. by rewrite Marshal_map_message.
    + rewrite decide_False by done. cbn.
      destruct (mapToOrder item) as [order | e] eqn:Hitem; cbn;
        [| left; by eexists].
      destruct (range_Items items [order]) as [orders | e] eqn:Hloop; cbn;
        [| left; by eexists].
      right. apply range_Items_Val in Hloop as (more & -> & _).
      by exists order, more.
  - by rewrite Marshal_map_message.
Qed.

(** C5: a GET with a non-empty order identifier whose query succeeds with no
    items is answered with status 404 and the body
    [{"message":"Order not found"}]; and whatever the query returns, the
    answer is never status 200 with the empty array.  Against the table, an
    identifier no record is stored under gets the 404. *)
Theorem getOrderByID_not_found req orderId w :
  APIGatewayProxyRequest.HTTPMethod req = http.MethodGet ->
  identifier req = Some orderId ->
  let not_found :=
    ({| APIGatewayProxyResponse.StatusCode := 404;
        APIGatewayProxyResponse.Body := message_json "Order not found" |},
     nil) in
  (exists rest,
     on_Query (handler req) (inl {| QueryOutput.Items := [] |}) = Some rest /\
     run rest w = (Val not_found, w)) /\
  (forall reply rest resp err,
     on_Query (handler req) reply = Some rest ->
     (run rest w).1 = Val (resp, err) ->
     ~ (APIGatewayProxyResponse.StatusCode resp = 200 /\
        APIGatewayProxyResponse.Body resp = "[]"%string)) /\
  (outage w = None -> table w !! orderId = None ->
   (invoke req w).1 = Val not_found).
Proof.
  intros Hget Hid not_found. unfold invoke.
  rewrite (handler_GET req Hget), Hid. split; [| split].
  - eexists. split; [done |].
    exact (getOrderByID_on_Query orderId (inl {| QueryOutput.Items := [] |})
             _ w eq_refl).
  - intros reply rest resp err Hrest Hrun [Hstatus Hbody].
    pose proof (getOrderByID_on_Query orderId reply rest w Hrest) as Hcases.
    destruct reply as [[[| item items]] | failure]; cbn in Hcases.
    + rewrite Hcases in Hrun. injection Hrun as <- <-. discriminate Hstatus.
    + destruct Hcases as [[e He] | (order & orders & Hok)].
      * rewrite He in Hrun. discriminate Hrun.
      * rewrite Hok in Hrun. injection Hrun as <- <-.
        by apply (Marshal_Orders_cons order orders).
    + rewrite Hcases in Hrun. injection Hrun as <- <-. discriminate Hstatus.
  - intros Hup Hnone. cbn. rewrite Hup, store_Query_orderId, Hnone. cbn.
    rewrite decide_True by done. cbn. by rewrite Marshal_map_message.
Qed.

(** C8: a request whose method is neither GET nor POST is answered with
    status 405 and the plain text [Method not allowed]; the handler returns at
    once, so that no store call is made. *)
Theorem handler_method_not_allowed req w :
  APIGatewayProxyRequest.HTTPMethod req <> "GET"%string ->
  APIGatewayProxyRequest.HTTPMethod req <> "POST"%string ->
  let not_allowed :=
    ({| APIGatewayProxyResponse.StatusCode := 405;
        APIGatewayProxyResponse.Body := "Method not allowed" |}, nil) in
  handler req = Return not_allowed /\
  invoke req w = (Val not_allowed, w) /\
  calls (invoke req w).2 = calls w.
Proof.
  intros Hget Hpost not_allowed.
  assert (Htree : handler req = Return not_allowed).
  { unfold handler. by rewrite !decide_False. }
  unfold invoke. by rewrite Htree.
Qed.

(** What a create starts with is never a read of the store. *)
Lemma first_read_createOrder req : first_read (createOrder req) = None.
Proof.
  unfold createOrder. destruct (json_Unmarshal _); [| done].
  by destruct (decide _).
Qed.

Lemma first_read_getAllOrders :
  first_read getAllOrders = Some (CallScan {| ScanInput.TableName := "Orders" |}).
Proof. reflexivity. Qed.

(** C10: a GET whose path parameters bind [orderId] to the empty string goes
    to fetch-all: the handler is the full scan.  Fetch-one, the computation
    that starts with a query, is what the handler does only for a GET whose
    identifier is present and not empty. *)
Theorem handler_empty_identifier req :
  APIGatewayProxyRequest.HTTPMethod req = http.MethodGet ->
  APIGatewayProxyRequest.PathParameters req !! "orderId"%string
    = Some EmptyString ->
  handler req = getAllOrders /\
  first_read (handler req)
    = Some (CallScan {| ScanInput.TableName := "Orders" |}) /\
  (forall other params,
     first_read (handler other) = Some (CallQuery params) ->
     APIGatewayProxyRequest.HTTPMethod other = http.MethodGet /\
     exists orderId,
       APIGatewayProxyRequest.PathParameters other !! "orderId"%string
         = Some orderId /\
       orderId <> EmptyString /\
       handler other = getOrderByID orderId).
Proof.
  intros Hget Hempty.
  assert (Hall : handler req = getAllOrders).
  { rewrite (handler_GET req Hget). unfold identifier. by rewrite Hempty. }
  split; [done | split; [by rewrite Hall |]].
  intros other params. unfold handler.
  destruct (decide (_ = http.MethodPost));
    [by rewrite first_read_createOrder |].
  destruct (decide (_ = http.MethodGet)) as [Hother |];
    [| cbn; intros Hread; discriminate Hread].
  destruct (APIGatewayProxyRequest.PathParameters other !! _)
    as [orderId |] eqn:Hpath;
    [| rewrite first_read_getAllOrders; intros Hread; discriminate Hread].
  destruct (decide (orderId ≠ EmptyString));
    [| rewrite first_read_getAllOrders; intros Hread; discriminate Hread].
  intros _. split; [done |]. by exists orderId.
Qed.

End Dispatch.

(** * Further properties *)

(** ** What [atoi] reads *)
Section Reading.
Import strconv.

Lemma int64_is_int z : is_int (int64 z).
Proof. unfold is_int, int64, MinInt, MaxInt. lia. Qed.

Lemma Atoi_loop_is_int s0 cs : forall n,
  is_int n -> is_int (Atoi_loop s0 cs n).1.
Proof.
  induction cs as [| ch rest IH]; intros n Hn; cbn [Atoi_loop]; [done |].
  destruct (9 <? _); [by vm_compute |]. apply IH, int64_is_int.
Qed.

Lemma ParseInt_is_int s : is_int (ParseInt s).1.
Proof.
  unfold ParseInt. destruct s as [| c0 rest]; [by vm_compute |].
  destruct (if byte c0 =? 43 then _ else _) as [neg s].
  destruct (ParseUint s) as [un err].
  repeat (match goal with
          | |- context [if ?c then _ else _] => destruct c
          end; cbv beta iota zeta);
    cbn [fst]; first [apply int64_is_int | by vm_compute].
Qed.

Lemma Atoi_is_int s : is_int (Atoi s).1.
Proof.
  unfold Atoi. destruct ((0 <? len s) && (len s <? 19)).
  - destruct s as [| c0 rest]; [by vm_compute |].
    destruct (_ && _); [by vm_compute |].
    pose proof (Atoi_loop_is_int (String c0 rest)
                  (if (byte c0 =? 45) || (byte c0 =? 43)
                   then rest else String c0 rest) 0) as Hloop.
    destruct (Atoi_loop _ _ 0) as [n [e |]]; cbn [fst] in *.
    + apply Hloop. by vm_compute.
    + destruct (byte c0 =? 45); [apply int64_is_int |].
      apply Hloop. by vm_compute.
  - pose proof (ParseInt_is_int s) as Hparse.
    by destruct (ParseInt s) as [i64 [nerr |]].
Qed.

Lemma atoi_is_int s : is_int (atoi s).
Proof.
  unfold atoi. pose proof (Atoi_is_int s) as Hs.
  by destruct (strconv.Atoi s).
Qed.

Lemma chr_byte ch : chr (byte ch) = ch.
Proof. unfold chr, byte. rewrite Nat2Z.id. apply ascii_nat_embedding. Qed.

Lemma digit_of_byte ch :
  48 <= byte ch <= 57 -> ch = digit (byte ch - 48).
Proof.
  intros Hch. unfold digit.
  replace (48 + (byte ch - 48)) with (byte ch) by lia. by rewrite chr_byte.
Qed.

Lemma is_digits_cons ch rest :
  is_digits (String ch rest) = true ->
  48 <= byte ch <= 57 /\ is_digits rest = true.
Proof.
  cbn [is_digits]. intros [[Hlo Hhi]%andb_true_iff Hrest]%andb_true_iff.
  apply Z.leb_le in Hlo, Hhi. by split.
Qed.

Lemma digits_value_ge s : forall n,
  is_digits s = true -> 0 <= n -> n <= digits_value n s.
Proof.
  induction s as [| ch rest IH]; intros n Hs Hn; cbn [digits_value]; [lia |].
  apply is_digits_cons in Hs as [Hch Hrest].
  etrans; [| apply IH]; [lia | done | lia].
Qed.

Lemma ParseUint_loop_is_digits s0 s : forall n,
  is_digits s = true -> 0 <= n -> digits_value n s <= maxUint64 ->
  ParseUint_loop s0 s n = (digits_value n s, None).
Proof.
  induction s as [| ch rest IH]; intros n Hs Hn Hmax; [done |].
  pose proof (is_digits_cons _ _ Hs) as [Hch Hrest].
  cbn [digits_value] in *.
  pose proof (digits_value_ge rest (n * 10 + (byte ch - 48)) Hrest) as Hge.
  rewrite (digit_of_byte ch Hch) at 1.
  rewrite ParseUint_loop_digit by lia. apply IH; [done | lia | done].
Qed.

Lemma Atoi_loop_is_digits s0 s : forall n,
  is_digits s = true -> 0 <= n -> digits_value n s <= MaxInt ->
  Atoi_loop s0 s n = (digits_value n s, None).
Proof.
  induction s as [| ch rest IH]; intros n Hs Hn Hmax; [done |].
  pose proof (is_digits_cons _ _ Hs) as [Hch Hrest].
  cbn [digits_value] in *.
  pose proof (digits_value_ge rest (n * 10 + (byte ch - 48)) Hrest) as Hge.
  rewrite (digit_of_byte ch Hch) at 1.
  rewrite Atoi_loop_digit by (unfold is_int, MinInt, MaxInt in *; lia).
  apply IH; [done | lia | done].
Qed.

(** A text of digits after an optional sign, whichever path [Atoi] takes. *)
Lemma Atoi_sign_digits (sign : option bool) s :
  s <> EmptyString -> is_digits s = true -> digits_value 0 s <= MaxInt ->
  Atoi (match sign with
        | Some true => String (chr 45) s
        | Some false => String (chr 43) s
        | None => s
        end)
  = ((if sign is Some true then - digits_value 0 s else digits_value 0 s),
     None).
Proof.
  intros Hne Hs Hmax.
  destruct s as [| ch rest]; [done |].
  pose proof (is_digits_cons _ _ Hs) as [Hch _].
  pose proof (digits_value_ge (String ch rest) 0 Hs) as Hge.
  assert (Hminus : (byte ch =? 45) = false) by (apply Z.eqb_neq; lia).
  assert (Hplus : (byte ch =? 43) = false) by (apply Z.eqb_neq; lia).
  assert (HU : ParseUint (String ch rest)
               = (digits_value 0 (String ch rest), None)).
  { unfold ParseUint. apply ParseUint_loop_is_digits; [done | lia |].
    unfold maxUint64, MaxInt in *. lia. }
  unfold Atoi.
  match goal with |- (if ?c then _ else _) = _ => destruct c end.
  - destruct sign as [[|] |].
    + change (byte (chr 45) =? 45) with true. cbn [orb andb].
      replace (len (String ch rest) <? 1) with false
        by (unfold len; cbn [String.length]; symmetry; apply Z.ltb_ge; lia).
      rewrite Atoi_loop_is_digits by (first [done | lia]).
      by rewrite int64_small by (unfold is_int, MinInt, MaxInt in *; lia).
    + change (byte (chr 43) =? 45) with false.
      change (byte (chr 43) =? 43) with true. cbn [orb andb].
      replace (len (String ch rest) <? 1) with false
        by (unfold len; cbn [String.length]; symmetry; apply Z.ltb_ge; lia).
      by rewrite Atoi_loop_is_digits by (first [done | lia]).
    + rewrite Hminus, Hplus. cbn [orb andb].
      by rewrite Atoi_loop_is_digits by (first [done | lia]).
  - unfold MaxInt in Hmax. destruct sign as [[|] |]; unfold ParseInt.
    + change (byte (chr 45) =? 43) with false.
      change (byte (chr 45) =? 45) with true. cbv beta iota.
      rewrite HU. cbv beta iota zeta. unfold intSize.
      replace (2 ^ (64 - 1) <? digits_value 0 (String ch rest)) with false
        by (symmetry; apply Z.ltb_ge; lia).
      cbn [negb andb].
      rewrite (int64_small (digits_value 0 (String ch rest)))
        by (unfold is_int, MinInt, MaxInt; lia).
      by rewrite int64_small by (unfold is_int, MinInt, MaxInt; lia).
    + change (byte (chr 43) =? 43) with true. cbv beta iota.
      rewrite HU. cbv beta iota zeta. unfold intSize.
      replace (2 ^ (64 - 1) <=? digits_value 0 (String ch rest)) with false
        by (symmetry; apply Z.leb_gt; lia).
      cbn [negb andb].
      by rewrite int64_small by (unfold is_int, MinInt, MaxInt; lia).
    + rewrite Hplus, Hminus. cbv beta iota.
      rewrite HU. cbv beta iota zeta. unfold intSize.
      replace (2 ^ (64 - 1) <=? digits_value 0 (String ch rest)) with false
        by (symmetry; apply Z.leb_gt; lia).
      cbn [negb andb].
      by rewrite int64_small by (unfold is_int, MinInt, MaxInt; lia).
Qed.

(** X1: [atoi] reads every text of decimal digits whose value fits an [int],
    leading zeros included, and the same text after a plus or a minus sign. *)
Theorem atoi_reads_decimal s :
  s <> EmptyString -> is_digits s = true -> digits_value 0 s <= MaxInt ->
  atoi s = digits_value 0 s /\
  atoi (String (chr 43) s) = digits_value 0 s /\
  atoi (String (chr 45) s) = - digits_value 0 s.
Proof.
  intros Hne Hs Hmax. unfold atoi.
  rewrite (Atoi_sign_digits None s), (Atoi_sign_digits (Some false) s),
    (Atoi_sign_digits (Some true) s) by done.
  done.
Qed.

(** X2: whatever text the quantity attribute holds, the quantity of an order
    [mapToOrder] returns lies in the range of a Go [int]. *)
Theorem mapToOrder_quantity_int item order :
  mapToOrder item = Val order -> is_int (Quantity order).
Proof.
  unfold mapToOrder.
  destruct (assertS (item !! "orderId"%string)); cbn; [| done].
  destruct (assertS (item !! "customerName"%string)); cbn; [| done].
  destruct (assertS (item !! "product"%string)); cbn; [| done].
  destruct (assertN (item !! "quantity"%string)); cbn; [| done].
  destruct (assertS (item !! "status"%string)); cbn; [| done].
  destruct (assertS (item !! "createdAt"%string)); cbn; [| done].
  intros [= <-]. apply atoi_is_int.
Qed.

End Reading.

(** ** What [mapToOrder] reads *)
Section Attributes.

(** X3: [mapToOrder] returns an order exactly when the item holds the five
    string attributes as strings and the quantity as a number; the order then
    has their values, the quantity being [atoi] of the numeric text. *)
Theorem mapToOrder_Val_iff item order :
  mapToOrder item = Val order <->
  item !! "orderId"%string = Some (AttributeValueMemberS (OrderID order)) /\
  item !! "customerName"%string
    = Some (AttributeValueMemberS (CustomerName order)) /\
  item !! "product"%string = Some (AttributeValueMemberS (Product order)) /\
  (exists s, item !! "quantity"%string = Some (AttributeValueMemberN s) /\
             Quantity order = atoi s) /\
  item !! "status"%string = Some (AttributeValueMemberS (Status order)) /\
  item !! "createdAt"%string = Some (AttributeValueMemberS (CreatedAt order)).
Proof.
  unfold mapToOrder. split.
  - destruct (item !! "orderId"%string) as [[] |]; cbn; try done.
    destruct (item !! "customerName"%string) as [[] |]; cbn; try done.
    destruct (item !! "product"%string) as [[] |]; cbn; try done.
    destruct (item !! "quantity"%string) as [[] |]; cbn; try done.
    destruct (item !! "status"%string) as [[] |]; cbn; try done.
    destruct (item !! "createdAt"%string) as [[] |]; cbn; try done.
    intros [= <-]. cbn. repeat split. by eexists.
  - intros (-> & -> & -> & (s & -> & Hq) & -> & ->). cbn.
    rewrite <- Hq. by destruct order.
Qed.

(** X4: [mapToOrder] looks at the six attributes only: an attribute under
    another name, added, replaced or removed, does not change what it
    returns. *)
Theorem mapToOrder_other_attributes item name value :
  name ∉ order_attributes ->
  mapToOrder (<[ name := value ]> item) = mapToOrder item /\
  mapToOrder (delete name item) = mapToOrder item.
Proof.
  intros Hname. unfold order_attributes in Hname.
  repeat (apply not_elem_of_cons in Hname as [? Hname]).
  unfold mapToOrder.
  by rewrite !lookup_insert_ne, !lookup_delete_ne by done.
Qed.

End Attributes.

(** ** Create *)
Section Create.
Context `{Libraries}.

#[local] Arguments json.Marshal_map : simpl never.
#[local] Arguments json.Marshal_Orders : simpl never.
#[local] Arguments orderItem : simpl never.
#[local] Arguments store_PutItem : simpl never.
#[local] Arguments store_Query : simpl never.

Lemma run_createOrder_world req order w :
  json_Unmarshal (APIGatewayProxyRequest.Body req) = inl order ->
  let put := CallPutItem
               {| PutItemInput.TableName := tableName;
                  PutItemInput.Item := orderItem (stamped order (clock w)) |} in
  run (createOrder req) w
  = match outage w with
    | None =>
        (Val ({| APIGatewayProxyResponse.StatusCode := 201;
                 APIGatewayProxyResponse.Body :=
                   message_json "Order created successfully" |}, nil),
         {| clock := clock w;
            table := <[ OrderID order := orderItem (stamped order (clock w)) ]>
                       (table w);
            outage := None;
            logged := logged w;
            calls := calls w ++ [put] |})
    | Some err =>
        (Val ({| APIGatewayProxyResponse.StatusCode := 500;
                 APIGatewayProxyResponse.Body :=
                   message_json "Failed to create order" |}, nil),
         {| clock := clock w;
            table := table w;
            outage := Some err;
            logged := logged w ++ [["PutItem error:"%string; err]];
            calls := calls w ++ [put] |})
    end.
Proof.
  intros Hbody put. subst put. unfold createOrder. rewrite Hbody.
  rewrite <- (stamped_OrderID order (clock w)). unfold stamped.
  destruct (decide (CreatedAt order = EmptyString)); cbn;
    destruct (outage w) as [err |] eqn:Hout; cbn;
    rewrite ?store_PutItem_orderItem; cbn;
    rewrite Marshal_map_message by done;
    unfold record_call, write_log; cbn; by rewrite ?Hout.
Qed.

Lemma createOrder_created_table req order w :
  APIGatewayProxyRequest.HTTPMethod req = http.MethodPost ->
  json_Unmarshal (APIGatewayProxyRequest.Body req) = inl order ->
  outage w = None ->
  table (invoke req w).2
  = <[ OrderID order := orderItem (stamped order (clock w)) ]> (table w).
Proof.
  intros Hpost Hbody Hup. unfold invoke.
  rewrite (handler_POST req Hpost), (run_createOrder_world req order w Hbody).
  by rewrite Hup.
Qed.

(** X5: a POST whose body decodes, with the store taking the write, is
    answered with status 201 and the body
    [{"message":"Order created successfully"}]; it makes the one [PutItem]
    call, puts the record under the order's identifier whatever was there
    before, and writes no log line. *)
Theorem createOrder_created req order w :
  APIGatewayProxyRequest.HTTPMethod req = http.MethodPost ->
  json_Unmarshal (APIGatewayProxyRequest.Body req) = inl order ->
  outage w = None ->
  let written := orderItem (stamped order (clock w)) in
  invoke req w
  = (Val ({| APIGatewayProxyResponse.StatusCode := 201;
             APIGatewayProxyResponse.Body :=
               message_json "Order created successfully" |}, nil),
     {| clock := clock w;
        table := <[ OrderID order := written ]> (table w);
        outage := None;
        logged := logged w;
        calls := calls w ++
                 [ CallPutItem {| PutItemInput.TableName := "Orders";
                                  PutItemInput.Item := written |} ] |}).
Proof.
  intros Hpost Hbody Hup written. unfold invoke.
  rewrite (handler_POST req Hpost), (run_createOrder_world req order w Hbody).
  by rewrite Hup.
Qed.

(** X6: a POST whose body decodes, with the store failing the write, is
    answered with status 500 and the body
    [{"message":"Failed to create order"}]; the table is as before, and the
    log gains the line of the failure, with the error. *)
Theorem createOrder_store_failure req order err w :
  APIGatewayProxyRequest.HTTPMethod req = http.MethodPost ->
  json_Unmarshal (APIGatewayProxyRequest.Body req) = inl order ->
  outage w = Some err ->
  (invoke req w).1
  = Val ({| APIGatewayProxyResponse.StatusCode := 500;
            APIGatewayProxyResponse.Body :=
              message_json "Failed to create order" |}, nil) /\
  table (invoke req w).2 = table w /\
  logged (invoke req w).2 = logged w ++ [["PutItem error:"%string; err]].
Proof.
  intros Hpost Hbody Hdown. unfold invoke.
  rewrite (handler_POST req Hpost), (run_createOrder_world req order w Hbody).
  by rewrite Hdown.
Qed.

End Create.

(** ** Fetch *)
Section Fetch.
Context `{Libraries}.

#[local] Arguments json.Marshal_map : simpl never.
#[local] Arguments json.Marshal_Orders : simpl never.
#[local] Arguments orderItem : simpl never.
#[local] Arguments store_Scan : simpl never.
#[local] Arguments store_Query : simpl never.

(** Fetch-one against the table, store up: the item under the identifier, if
    any, mapped to an order. *)
Lemma run_getOrderByID_up orderId w :
  outage w = None ->
  (run (getOrderByID orderId) w).1
  = match table w !! orderId with
    | None =>
        Val ({| APIGatewayProxyResponse.StatusCode := 404;
                APIGatewayProxyResponse.Body :=
                  message_json "Order not found" |}, nil)
    | Some item =>
        match mapToOrder item with
        | Val order =>
            Val ({| APIGatewayProxyResponse.StatusCode := 200;
                    APIGatewayProxyResponse.Body :=
                      json.Marshal_Orders [order] |}, nil)
        | Panic e => Panic e
        end
    end.
Proof.
  intros Hup. unfold getOrderByID. cbn.
  rewrite Hup, store_Query_orderId.
  destruct (table w !! orderId) as [item |]; cbn.
  - rewrite decide_False by done. cbn. by destruct (mapToOrder item).
  - rewrite decide_True by done. cbn. by rewrite Marshal_map_message.
Qed.


End Fetch.

(** ** Fetches after a history *)
Section FetchHistory.
Context `{Libraries}.

#[local] Arguments json.Marshal_map : simpl never.
#[local] Arguments json.Marshal_Orders : simpl never.
#[local] Arguments orderItem : simpl never.
#[local] Arguments store_Scan : simpl never.
#[local] Arguments store_Query : simpl never.

(** Fetch-one against the table of a history. *)
Lemma run_getOrderByID_after now history orderId w :
  table w = table (after now history) -> outage w = None ->
  (run (getOrderByID orderId) w).1
  = match records history !! orderId with
    | Some order =>
        Val ({| APIGatewayProxyResponse.StatusCode := 200;
                APIGatewayProxyResponse.Body := json.Marshal_Orders [order] |},
             nil)
    | None =>
        Val ({| APIGatewayProxyResponse.StatusCode := 404;
                APIGatewayProxyResponse.Body := message_json "Order not found" |},
             nil)
    end.
Proof.
  intros Htable Hup. rewrite run_getOrderByID_up by done.
  rewrite Htable, after_table, lookup_fmap.
  destruct (records history !! orderId) as [order |] eqn:Hrecord; cbn; [| done].
  rewrite mapToOrder_orderItem; [done |].
  by destruct (records_keyed history orderId order Hrecord).
Qed.


(** X9: on a table written only through the handler no invocation panics:
    after any history every request gets a response, with a nil error. *)
Theorem handler_never_panics_after_history now history inv :
  exists resp,
    (invoke (request inv) (arrive inv (after now history))).1 = Val (resp, nil).
Proof.
  unfold invoke, handler.
  destruct (decide (_ = http.MethodPost)) as [Hpost | Hpost].
  - destruct (json_Unmarshal (APIGatewayProxyRequest.Body (request inv)))
      as [order | err] eqn:Hbody.
    + rewrite (run_createOrder_world _ order _ Hbody).
      destruct (outage _); by eexists.
    + unfold createOrder. rewrite Hbody. by eexists.
  - destruct (decide (_ = http.MethodGet)) as [Hget |]; [| by eexists].
    pose proof (handler_GET _ Hget) as Hdispatch. unfold handler in Hdispatch.
    rewrite decide_False, decide_True in Hdispatch by done.
    rewrite Hdispatch. clear Hdispatch.
    destruct (store_down inv) as [err |] eqn:Hdown.
    + destruct (identifier _); cbn; rewrite Hdown; cbn; by eexists.
    + destruct (identifier (request inv)) as [orderId |] eqn:Hid.
      * rewrite (run_getOrderByID_after now history) by done.
        destruct (records history !! orderId); by eexists.
      * rewrite (run_getAllOrders_after now history) by done. by eexists.
Qed.

(** X10: fetch-all on an empty table is answered with status 200 and the
    empty array, not with a 404. *)
Theorem getAllOrders_empty_table req w :
  APIGatewayProxyRequest.HTTPMethod req = http.MethodGet ->
  identifier req = None ->
  outage w = None ->
  table w = ∅ ->
  (invoke req w).1
  = Val ({| APIGatewayProxyResponse.StatusCode := 200;
            APIGatewayProxyResponse.Body := "[]" |}, nil).
Proof.
  intros Hget Hid Hup Hempty. unfold invoke. rewrite (handler_GET _ Hget), Hid.
  unfold getAllOrders. cbn. rewrite Hup, store_Scan_tableName, Hempty.
  by rewrite map_to_list_empty.
Qed.

(** X11: both fetches answer with one array element per item the store
    returned, in the store's order: when every returned item maps to an
    order, the body is the array of those orders.  A query that returns
    several items has all of them in the answer. *)
Theorem fetch_keeps_store_order items orders w :
  Forall2 (fun item order => mapToOrder item = Val order) items orders ->
  let ok := Val ({| APIGatewayProxyResponse.StatusCode := 200;
                    APIGatewayProxyResponse.Body :=
                      json.Marshal_Orders orders |}, nil) in
  (forall rest,
     on_Scan getAllOrders (inl {| ScanOutput.Items := items |}) = Some rest ->
     run rest w = (ok, w)) /\
  (forall orderId rest,
     items <> [] ->
     on_Query (getOrderByID orderId) (inl {| QueryOutput.Items := items |})
       = Some rest ->
     run rest w = (ok, w)).
Proof.
  intros Hall ok. subst ok. split.
  - intros rest [= <-]. cbn.
    by rewrite (range_Items_Forall2 items orders []).
  - intros orderId rest Hne [= <-]. cbn.
    rewrite decide_False by (by destruct items). cbn.
    by rewrite (range_Items_Forall2 items orders []).
Qed.

End FetchHistory.

(** ** Whatever the store answers *)
Section Outcomes.
Context `{Libraries}.

#[local] Arguments json.Marshal_map : simpl never.
#[local] Arguments json.Marshal_Orders : simpl never.
#[local] Arguments orderItem : simpl never.
#[local] Arguments store_PutItem : simpl never.
#[local] Arguments store_Scan : simpl never.
#[local] Arguments store_Query : simpl never.

(** What holds of every return holds of the return of a run. *)
Lemma returns_run {A} (P : A -> Prop) (m : Lambda A) : forall w a,
  returns P m -> (run m w).1 = Val a -> P a.
Proof.
  induction m as [a' | e | k IH | v k IH | params k IH | params k IH
                  | params k IH]; intros w a Hm; cbn in *.
  - by intros [= <-].
  - done.
  - by apply IH.
  - by apply IH.
  - destruct (match outage w with Some _ => _ | None => _ end) as [r tbl].
    by apply IH.
  - by apply IH.
  - by apply IH.
Qed.

(** The calls a run adds to the journal are calls of the computation. *)
Lemma run_calls {A} (m : Lambda A) : forall n Q w,
  calls_at_most n m -> every_call Q m ->
  exists cs, calls (run m w).2 = calls w ++ cs /\
             (length cs <= n)%nat /\ Forall Q cs.
Proof.
  induction m as [a' | e | k IH | v k IH | params k IH | params k IH
                  | params k IH]; intros n Q w Hn HQ; cbn in *.
  - exists []. rewrite app_nil_r. repeat split; [cbn; lia | constructor].
  - exists []. rewrite app_nil_r. repeat split; [cbn; lia | constructor].
  - by apply IH.
  - destruct (IH n Q (write_log v w) Hn HQ) as (cs & Hcs & Hlen & Hall).
    by exists cs.
  - destruct n as [| n]; [done |]. destruct HQ as [Hcall HQ].
    destruct (match outage w with Some _ => _ | None => _ end) as [r tbl].
    destruct (IH r n Q (record_call (CallPutItem params) tbl w) (Hn r) (HQ r))
      as (cs & Hcs & Hlen & Hall).
    exists (CallPutItem params :: cs). rewrite Hcs. cbn.
    rewrite <- app_assoc. repeat split; [lia | by constructor].
  - destruct n as [| n]; [done |]. destruct HQ as [Hcall HQ].
    match goal with |- context [run (k ?r) ?w'] =>
      destruct (IH r n Q w' (Hn r) (HQ r)) as (cs & Hcs & Hlen & Hall) end.
    exists (CallScan params :: cs). rewrite Hcs. cbn.
    rewrite <- app_assoc. repeat split; [lia | by constructor].
  - destruct n as [| n]; [done |]. destruct HQ as [Hcall HQ].
    match goal with |- context [run (k ?r) ?w'] =>
      destruct (IH r n Q w' (Hn r) (HQ r)) as (cs & Hcs & Hlen & Hall) end.
    exists (CallQuery params :: cs). rewrite Hcs. cbn.
    rewrite <- app_assoc. repeat split; [lia | by constructor].
Qed.

(** X12: every response the handler returns, whatever the clock reads and
    the store answers, comes with a nil error and is one of: status 200 with
    an array of orders; 201, 400, 404 or 500 with its fixed message; 405 with
    its plain text.  So failures reach the caller as status codes, never as an
    error of the invocation. *)
Theorem handler_answers req :
  returns (fun answer => answer.2 = nil /\ answers answer.1) (handler req) /\
  (forall w resp err,
     (invoke req w).1 = Val (resp, err) -> err = nil /\ answers resp).
Proof.
  assert (Htree : returns (fun answer => answer.2 = nil /\ answers answer.1)
                    (handler req)).
  { unfold handler.
    destruct (decide (_ = http.MethodPost)).
    - unfold createOrder. destruct (json_Unmarshal _) as [order | err].
      + destruct (decide (CreatedAt order = EmptyString)); cbn;
          intros; repeat (match goal with
                          | r : _ + _ |- _ => destruct r
                          end); cbn;
          rewrite Marshal_map_message by done;
          (split; [done |]); unfold answers; cbn; naive_solver.
      + cbn. rewrite Marshal_map_message by done.
        split; [done |]. unfold answers; cbn; naive_solver.
    - destruct (decide (_ = http.MethodGet)).
      + assert (Hall : returns
                  (fun answer => answer.2 = nil /\ answers answer.1)
                  getAllOrders).
        { cbn. intros [[items] | err]; cbn.
          - destruct (range_Items items []) as [orders | panic]; cbn; [| done].
            split; [done |]. unfold answers; cbn. left. by eauto.
          - rewrite Marshal_map_message by done.
            split; [done |]. unfold answers; cbn; naive_solver. }
        destruct (_ !! _) as [orderId |]; [| done].
        destruct (decide (orderId ≠ EmptyString)); [| done].
        cbn. intros [[items] | err]; cbn.
        * destruct (decide (length items = 0%nat)); cbn.
          -- rewrite Marshal_map_message by done.
             split; [done |]. unfold answers; cbn; naive_solver.
          -- destruct (range_Items items []) as [orders | panic]; cbn; [| done].
             split; [done |]. unfold answers; cbn. left. by eauto.
        * rewrite Marshal_map_message by done.
          split; [done |]. unfold answers; cbn; naive_solver.
      + cbn. split; [done |]. unfold answers; cbn; naive_solver. }
  split; [done |]. intros w resp err Hrun.
  exact (returns_run _ (handler req) w (resp, err) Htree Hrun).
Qed.

(** X13: an invocation makes at most one store call, whatever the answers;
    the call is on the table [Orders]; it is a read (a scan or a query)
    exactly when the method is GET, so that a GET never writes and a POST
    never reads. *)
Theorem handler_one_store_call req :
  let expected c :=
    call_table c = "Orders"%string /\
    (is_read c = true <->
     APIGatewayProxyRequest.HTTPMethod req = http.MethodGet) in
  calls_at_most 1 (handler req) /\
  every_call expected (handler req) /\
  (forall w, exists cs,
     calls (invoke req w).2 = calls w ++ cs /\
     (length cs <= 1)%nat /\ Forall expected cs).
Proof.
  intros expected.
  assert (Htree : calls_at_most 1 (handler req) /\
                  every_call expected (handler req)).
  { subst expected. unfold handler.
    destruct (decide (_ = http.MethodPost)) as [Hpost | Hpost].
    - unfold createOrder. destruct (json_Unmarshal _) as [order | err];
        [| done].
      destruct (decide (CreatedAt order = EmptyString)); cbn;
        (split; [by intros; repeat (match goal with
                                    | r : _ + _ |- _ => destruct r
                                    end) |]);
        intros; (split; [split; [done | rewrite Hpost; by split] |]);
        intros; by repeat (match goal with
                           | r : _ + _ |- _ => destruct r
                           end).
    - destruct (decide (_ = http.MethodGet)) as [Hget |]; [| done].
      assert (Hall : calls_at_most 1 getAllOrders /\
                     every_call
                       (fun c => call_table c = "Orders"%string /\
                                 (is_read c = true <->
                                  APIGatewayProxyRequest.HTTPMethod req
                                  = http.MethodGet)) getAllOrders).
      { cbn. split.
        - intros [[items] | err]; cbn; [| done].
          by destruct (range_Items items []).
        - split; [done |]. intros [[items] | err]; cbn; [| done].
          by destruct (range_Items items []). }
      destruct (_ !! _) as [orderId |]; [| done].
      destruct (decide (orderId ≠ EmptyString)); [| done].
      cbn. split.
      + intros [[items] | err]; cbn; [| done].
        destruct (decide _); cbn; [done |]. by destruct (range_Items items []).
      + split; [done |]. intros [[items] | err]; cbn; [| done].
        destruct (decide _); cbn; [done |]. by destruct (range_Items items []). }
  destruct Htree as [Hone Hcalls]. split; [done | split; [done |]].
  intros w. exact (run_calls (handler req) 1 expected w Hone Hcalls).
Qed.

End Outcomes.

(** ** What an invocation leaves behind *)
Section Traces.
Context `{Libraries}.

#[local] Arguments json.Marshal_map : simpl never.
#[local] Arguments json.Marshal_Orders : simpl never.
#[local] Arguments orderItem : simpl never.
#[local] Arguments store_PutItem : simpl never.
#[local] Arguments store_Scan : simpl never.
#[local] Arguments store_Query : simpl never.

(** The table after an invocation, in any world. *)
Lemma invoke_table req w :
  table (invoke req w).2
  = if decide (APIGatewayProxyRequest.HTTPMethod req = http.MethodPost) then
      match json_Unmarshal (APIGatewayProxyRequest.Body req), outage w with
      | inl order, None =>
          <[ OrderID order := orderItem (stamped order (clock w)) ]> (table w)
      | _, _ => table w
      end
    else table w.
Proof.
  unfold invoke, handler.
  destruct (decide (_ = http.MethodPost)) as [Hpost | Hpost].
  - destruct (json_Unmarshal (APIGatewayProxyRequest.Body req))
      as [order | err] eqn:Hbody.
    + rewrite (run_createOrder_world req order w Hbody).
      by destruct (outage w).
    + by rewrite (run_createOrder_invalid req err w Hbody).
  - destruct (decide (_ = http.MethodGet)); [| done].
    destruct (_ !! _) as [orderId |]; [destruct (decide _) |];
      by rewrite ?run_getAllOrders_table, ?run_getOrderByID_table.
Qed.

(** X14: no invocation removes a record: an identifier stored before is
    stored after.  Only a POST can change the table, and it changes at most
    the record under the identifier of the order it decodes; the records
    under every other identifier are as before. *)
Theorem invoke_keeps_records req w :
  (forall orderId,
     is_Some (table w !! orderId) ->
     is_Some (table (invoke req w).2 !! orderId)) /\
  (APIGatewayProxyRequest.HTTPMethod req <> http.MethodPost ->
   table (invoke req w).2 = table w) /\
  (forall order orderId,
     json_Unmarshal (APIGatewayProxyRequest.Body req) = inl order ->
     orderId <> OrderID order ->
     table (invoke req w).2 !! orderId = table w !! orderId).
Proof.
  rewrite invoke_table. split; [| split].
  - intros orderId Hstored. destruct (decide _); [| done].
    destruct (json_Unmarshal _) as [order |]; [| done].
    destruct (outage w); [done |].
    destruct (decide (OrderID order = orderId)) as [-> |].
    + by rewrite lookup_insert_eq.
    + by rewrite lookup_insert_ne.
  - intros Hother. by rewrite decide_False.
  - intros order orderId Hbody Hne. destruct (decide _); [| done].
    rewrite Hbody. destruct (outage w); [done |].
    by rewrite lookup_insert_ne.
Qed.

(** X15: a log line is written exactly when a store call fails: with the
    store answering nothing is logged, and with the store failing an
    invocation that makes a store call logs one line, the name of the failed
    operation and the error. *)
Theorem invoke_logged req w :
  logged (invoke req w).2
  = logged w ++
    match outage w with
    | Some err => option_list (failure_line req err)
    | None => []
    end.
Proof.
  unfold invoke, failure_line.
  destruct (decide (_ = http.MethodPost)) as [Hpost | Hpost].
  - rewrite (handler_POST req Hpost).
    destruct (json_Unmarshal (APIGatewayProxyRequest.Body req))
      as [order | err] eqn:Hbody.
    + rewrite (run_createOrder_world req order w Hbody).
      destruct (outage w); cbn; [done | by rewrite app_nil_r].
    + rewrite (run_createOrder_invalid req err w Hbody). cbn.
      destruct (outage w); by rewrite app_nil_r.
  - destruct (decide (_ = http.MethodGet)) as [Hget | Hget].
    + rewrite (handler_GET req Hget).
      destruct (identifier req) as [orderId |]; cbn;
        destruct (outage w) as [err |]; cbn; try done;
        rewrite ?store_Scan_tableName, ?store_Query_orderId; cbn;
        rewrite app_nil_r.
      * destruct (decide _); cbn; [done |]. by destruct (range_Items _ _).
      * by destruct (range_Items _ _).
    + unfold handler. rewrite !decide_False by done. cbn.
      destruct (outage w); by rewrite app_nil_r.
Qed.

(** X16: a create delivered twice, at the same clock reading, leaves the
    table as the first delivery left it. *)
Theorem create_twice_table w inv :
  table (step (step w inv) inv) = table (step w inv).
Proof.
  rewrite !step_table. destruct (created inv); [| done].
  by rewrite insert_insert_eq.
Qed.

End Traces.

(** ** What [intToString] writes *)
Section Writing.
Import strconv.

Lemma digits_value_digit d rest n :
  0 <= d <= 9 ->
  digits_value n (String (digit d) rest) = digits_value (n * 10 + d) rest.
Proof.
  intros Hd. cbn [digits_value]. rewrite byte_digit by done.
  f_equal. lia.
Qed.

Lemma is_digits_digit d rest :
  0 <= d <= 9 -> is_digits (String (digit d) rest) = is_digits rest.
Proof.
  intros Hd. cbn [is_digits]. rewrite byte_digit by done.
  replace (48 <=? 48 + d) with true by (symmetry; apply Z.leb_le; lia).
  by replace (48 + d <=? 57) with true by (symmetry; apply Z.leb_le; lia).
Qed.

Lemma formatBits_loop_value rounds : forall us a,
  0 <= us -> us < 100 * 100 ^ Z.of_nat rounds ->
  digits_value 0 (formatBits_loop rounds us a) = digits_value us a /\
  is_digits (formatBits_loop rounds us a) = is_digits a.
Proof.
  induction rounds as [| rounds IH]; intros us a Hus Hlt.
  - cbn [formatBits_loop].
    replace (us <? 100) with true by (symmetry; apply Z.ltb_lt; simpl in Hlt; lia).
    destruct (Z.leb_spec 10 us);
      rewrite !digits_value_digit, !is_digits_digit by lia;
      (split; [f_equal; lia | done]).
  - cbn [formatBits_loop]. destruct (Z.ltb_spec us 100).
    + destruct (Z.leb_spec 10 us);
        rewrite !digits_value_digit, !is_digits_digit by lia;
        (split; [f_equal; lia | done]).
    + destruct (IH (us / 100)
                  (String (digit (us mod 100 / 10))
                     (String (digit (us mod 100 mod 10)) a))) as [Hv Hd];
        [lia | rewrite ?Nat2Z.inj_succ, ?Z.pow_succ_r in Hlt by lia; lia |].
      rewrite Hv, Hd. rewrite !digits_value_digit, !is_digits_digit by lia.
      split; [f_equal; lia | done].
Qed.

(** X17: the text [intToString] writes for a Go [int] is a decimal literal of
    that integer: a minus sign exactly when it is negative, then one digit or
    more, only digits, whose value is the magnitude.  So the quantity
    attribute of a created record is always a well-formed number. *)
Theorem intToString_decimal i :
  is_int i ->
  exists ds,
    ds <> EmptyString /\ is_digits ds = true /\
    digits_value 0 ds = Z.abs i /\
    intToString i = if i <? 0 then String (chr 45) ds else ds.
Proof.
  intros Hi. unfold intToString.
  destruct (decide (i = MinInt)) as [-> | Hmin].
  { exists "9223372036854775808"%string. by vm_compute. }
  unfold is_int in Hi. rewrite Itoa_digits by lia.
  assert (Hlt : Z.abs i < 100 * 100 ^ Z.of_nat 10)
    by (change (100 * 100 ^ Z.of_nat 10) with (100 * 100 ^ 10);
        unfold MinInt, MaxInt in *; lia).
  destruct (formatBits_loop_value 10 (Z.abs i) EmptyString) as [Hv Hd];
    [lia | done |].
  destruct (formatBits_loop_head 10 (Z.abs i) EmptyString)
    as (d & rest & _ & Hhead); [lia | done |].
  exists (formatBits_loop 10 (Z.abs i) EmptyString).
  split; [by rewrite Hhead | split; [by rewrite Hd | split; [by rewrite Hv |]]].
  destruct (Z.ltb_spec i 0).
  - by replace (Z.abs i) with (- i) by lia.
  - by replace (Z.abs i) with i by lia.
Qed.

End Writing.

(** ** What the handler looks at *)
Section Inputs.
Context `{Libraries}.

(** X18: a POST is handled without looking at the path parameters, and a GET
    without looking at the body: requests that agree on the method and on the
    part their method reads are handled alike. *)
Theorem handler_reads_its_part req req' :
  APIGatewayProxyRequest.HTTPMethod req = APIGatewayProxyRequest.HTTPMethod req' ->
  (APIGatewayProxyRequest.HTTPMethod req = http.MethodPost ->
   APIGatewayProxyRequest.Body req = APIGatewayProxyRequest.Body req') ->
  (APIGatewayProxyRequest.HTTPMethod req = http.MethodGet ->
   APIGatewayProxyRequest.PathParameters req !! "orderId"%string
   = APIGatewayProxyRequest.PathParameters req' !! "orderId"%string) ->
  handler req = handler req'.
Proof.
  intros Hmethod Hbody Hpath. unfold handler. rewrite <- Hmethod.
  destruct (decide (_ = http.MethodPost)) as [Hpost |].
  - unfold createOrder. by rewrite (Hbody Hpost).
  - destruct (decide (_ = http.MethodGet)) as [Hget |]; [| done].
    by rewrite (Hpath Hget).
Qed.

End Inputs.

(** ** The properties on sample inputs *)
Section Samples.
#[local] Existing Instance Sample.libraries.


Lemma quantity_round_trip_witness :
  is_int (-1234567890123) /\
  atoi (intToString (-1234567890123)) = -1234567890123.
Proof.
  split.
  - unfold is_int, MinInt, MaxInt. lia.
  - apply (quantity_round_trip (-1234567890123)).
    unfold is_int, MinInt, MaxInt. lia.
Defined.




Lemma createOrder_writes_input_witness :
  exists item,
    calls (invoke (Sample.post Sample.lunch_body) Sample.fresh).2
    = [ CallPutItem {| PutItemInput.TableName := "Orders";
                       PutItemInput.Item := item |} ] /\
    item !! "quantity"%string = Some (AttributeValueMemberN "1") /\
    item !! "createdAt"%string = Some (AttributeValueMemberS Sample.noon) /\
    mapToOrder item
    = Val {| OrderID := "20221"; CustomerName := "Siri";
             Product := "Lunch Box"; Quantity := 1; Status := "CREATED";
             CreatedAt := Sample.noon |} /\
    table (invoke (Sample.post Sample.lunch_body) Sample.fresh).2
      !! "20221"%string = Some item.
Proof.
  destruct (createOrder_writes_input (Sample.post Sample.lunch_body)
              Sample.lunch Sample.fresh eq_refl eq_refl)
    as (item & Hcalls & _ & _ & _ & Hquantity & _ & HcreatedAt & Hread & Htable).
  exists item. repeat split.
  - exact Hcalls.
  - exact Hquantity.
  - exact HcreatedAt.
  - exact Hread.
  - exact (Htable eq_refl).
Defined.

Lemma createOrder_rejects_bad_body_witness :
  json_Unmarshal "{not json" = inr "unexpected end of JSON input"%string /\
  invoke (Sample.post "{not json")
    Sample.stocked
  = (Val ({| APIGatewayProxyResponse.StatusCode := 400;
             APIGatewayProxyResponse.Body :=
               message_json "Invalid request body" |}, nil),
     Sample.stocked).
Proof.
  split; [reflexivity |].
  exact (proj1 (proj2 (createOrder_rejects_bad_body (Sample.post "{not json")
                         "unexpected end of JSON input"
                         Sample.stocked
                         eq_refl eq_refl))).
Defined.

Lemma getOrderByID_not_found_witness :
  identifier (Sample.get_one "20999") = Some "20999"%string /\
  (invoke (Sample.get_one "20999") Sample.stocked).1
  = Val ({| APIGatewayProxyResponse.StatusCode := 404;
            APIGatewayProxyResponse.Body := message_json "Order not found" |},
         nil).
Proof.
  split; [reflexivity |].
  exact (proj2 (proj2 (getOrderByID_not_found (Sample.get_one "20999") "20999"
                         Sample.stocked
                         eq_refl eq_refl)) eq_refl eq_refl).
Defined.



Lemma handler_method_not_allowed_witness :
  let req := {| APIGatewayProxyRequest.HTTPMethod := "DELETE";
                APIGatewayProxyRequest.PathParameters :=
                  {[ "orderId"%string := "20221"%string ]};
                APIGatewayProxyRequest.Body := EmptyString |} in
  invoke req Sample.stocked
  = (Val ({| APIGatewayProxyResponse.StatusCode := 405;
             APIGatewayProxyResponse.Body := "Method not allowed" |}, nil),
     Sample.stocked).
Proof.
  intros req.
  refine (proj1 (proj2 (handler_method_not_allowed req Sample.stocked _ _)));
    discriminate.
Defined.

Lemma mapToOrder_not_total_witness :
  Sample.statusless_item !! "status"%string = None /\
  (exists e, mapToOrder Sample.statusless_item = Panic e) /\
  (exists e, (invoke Sample.get_all Sample.broken).1 = Panic e) /\
  (exists e, (invoke (Sample.get_one "20221") Sample.broken).1 = Panic e).
Proof.
  assert (Hshape : ~ order_shaped Sample.statusless_item).
  { intros (_ & _ & _ & _ & [s Hs] & _). discriminate Hs. }
  destruct (mapToOrder_not_total Sample.statusless_item Hshape)
    as (Hmap & Hscan & Hquery).
  split; [reflexivity | split; [exact Hmap | split]].
  - destruct (Hscan [Sample.statusless_item] _
                (record_call
                   (CallScan {| ScanInput.TableName := tableName |})
                   (table Sample.broken) Sample.broken)
                (list_elem_of_here _ _) eq_refl) as [e He].
    exists e. exact He.
  - destruct (Hquery "20221"%string [Sample.statusless_item] _
                (record_call
                   (CallQuery
                      {| QueryInput.TableName := tableName;
                         QueryInput.KeyConditionExpression := "orderId = :oid";
                         QueryInput.ExpressionAttributeValues :=
                           {[ ":oid"%string := AttributeValueMemberS "20221" ]} |})
                   (table Sample.broken) Sample.broken)
                (list_elem_of_here _ _) eq_refl) as [e He].
    exists e. exact He.
Defined.

Lemma handler_empty_identifier_witness :
  APIGatewayProxyRequest.PathParameters (Sample.get_one EmptyString)
    !! "orderId"%string = Some EmptyString /\
  handler (Sample.get_one EmptyString) = getAllOrders.
Proof.
  split; [reflexivity |].
  exact (proj1 (handler_empty_identifier (Sample.get_one EmptyString)
                  eq_refl eq_refl)).
Defined.

Lemma atoi_reads_decimal_witness :
  atoi "007" = 7 /\ atoi "+007" = 7 /\ atoi "-007" = -7.
Proof.
  apply (atoi_reads_decimal "007").
  - discriminate.
  - reflexivity.
  - vm_compute. discriminate.
Defined.

Lemma mapToOrder_quantity_int_witness :
  is_int (Quantity {| OrderID := "20221"; CustomerName := "Siri";
                      Product := "Lunch Box"; Quantity := MaxInt;
                      Status := "CREATED"; CreatedAt := EmptyString |}).
Proof.
  apply (mapToOrder_quantity_int Sample.huge_item). reflexivity.
Defined.

Lemma mapToOrder_other_attributes_witness :
  mapToOrder (<[ "note"%string := AttributeValueMemberBOOL true ]>
                (orderItem Sample.flask))
  = mapToOrder (orderItem Sample.flask).
Proof.
  apply (mapToOrder_other_attributes (orderItem Sample.flask) "note"
           (AttributeValueMemberBOOL true)).
  unfold order_attributes. intros Hin.
  repeat (apply elem_of_cons in Hin as [Hin | Hin]; [discriminate Hin |]).
  by apply elem_of_nil in Hin.
Defined.

Lemma createOrder_created_witness :
  (invoke (Sample.post Sample.lunch_body) Sample.fresh).1
  = Val ({| APIGatewayProxyResponse.StatusCode := 201;
            APIGatewayProxyResponse.Body :=
              message_json "Order created successfully" |}, nil).
Proof.
  exact (f_equal fst
           (createOrder_created (Sample.post Sample.lunch_body) Sample.lunch
              Sample.fresh eq_refl eq_refl eq_refl)).
Defined.

Lemma createOrder_store_failure_witness :
  (invoke (Sample.post Sample.lunch_body) Sample.store_failing).1
  = Val ({| APIGatewayProxyResponse.StatusCode := 500;
            APIGatewayProxyResponse.Body :=
              message_json "Failed to create order" |}, nil) /\
  table (invoke (Sample.post Sample.lunch_body) Sample.store_failing).2
  = table Sample.store_failing /\
  logged (invoke (Sample.post Sample.lunch_body) Sample.store_failing).2
  = logged Sample.store_failing
    ++ [["PutItem error:"%string; "RequestError: connection reset"%string]].
Proof.
  exact (createOrder_store_failure (Sample.post Sample.lunch_body)
           Sample.lunch "RequestError: connection reset"
           Sample.store_failing eq_refl eq_refl eq_refl).
Defined.



Lemma getAllOrders_empty_table_witness :
  (invoke Sample.get_all Sample.fresh).1
  = Val ({| APIGatewayProxyResponse.StatusCode := 200;
            APIGatewayProxyResponse.Body := "[]" |}, nil).
Proof.
  exact (getAllOrders_empty_table Sample.get_all Sample.fresh
           eq_refl eq_refl eq_refl eq_refl).
Defined.

Lemma fetch_keeps_store_order_witness :
  (fun rest => run rest Sample.fresh)
    <$> on_Query (getOrderByID "20221")
          (inl {| QueryOutput.Items :=
                    [orderItem Sample.flask; orderItem Sample.lunch] |})
  = Some (Val ({| APIGatewayProxyResponse.StatusCode := 200;
                  APIGatewayProxyResponse.Body :=
                    json.Marshal_Orders [Sample.flask; Sample.lunch] |}, nil),
          Sample.fresh).
Proof.
  destruct (on_Query _ _) as [rest |] eqn:Hrest; [| discriminate Hrest].
  cbn [fmap option_fmap option_map]. f_equal.
  refine (proj2 (fetch_keeps_store_order
                   [orderItem Sample.flask; orderItem Sample.lunch]
                   [Sample.flask; Sample.lunch] Sample.fresh _)
            "20221"%string rest _ Hrest).
  - repeat constructor.
  - discriminate.
Defined.

Lemma intToString_decimal_witness :
  exists ds,
    ds <> EmptyString /\ is_digits ds = true /\
    digits_value 0 ds = 42 /\
    intToString (-42) = String (chr 45) ds.
Proof.
  apply (intToString_decimal (-42)). unfold is_int, MinInt, MaxInt. lia.
Defined.

Lemma handler_reads_its_part_witness :
  handler (Sample.get_one "20221")
  = handler {| APIGatewayProxyRequest.HTTPMethod := "GET";
               APIGatewayProxyRequest.PathParameters :=
                 {[ "orderId"%string := "20221"%string ]};
               APIGatewayProxyRequest.Body := Sample.lunch_body |}.
Proof.
  apply handler_reads_its_part; [reflexivity | discriminate | reflexivity].
Defined.
End Samples.
